(** * go-hd44780: the HD44780 LCD driver over an I2C expander (lcd.go)

    A shallow embedding of [lcd.go].  Go's [byte] and [int] are modelled
    as [Z] with the 8-bit wrap-around written out, Go strings (byte
    sequences) as [string], the [*Lcd] receiver together with the I2C bus
    and the clock as an explicit state that every method threads, and
    run-time panics (index and slice bounds) as an outcome of their own. *)

From Stdlib Require Import ZArith List String Ascii Bool Lia DecimalString.
Import ListNotations.
Local Open Scope string_scope.
Local Open Scope list_scope.
Local Open Scope Z_scope.

(** ** Constants *)

Definition CMD_Clear_Display : Z := 0x01.
Definition CMD_Return_Home : Z := 0x02.
Definition CMD_Entry_Mode : Z := 0x04.
Definition CMD_Display_Control : Z := 0x08.
Definition CMD_Cursor_Shift : Z := 0x10.
Definition CMD_Function_Set : Z := 0x20.
Definition CMD_CGRAM_Set : Z := 0x40.
Definition CMD_DDRAM_Set : Z := 0x80.

Definition OPT_EntryLeft : Z := 0x02.
Definition OPT_EntryRight : Z := 0x00.
Definition OPT_Increment : Z := 0x01.
Definition OPT_Decrement : Z := 0x00.

Definition OPT_Enable_Display : Z := 0x04.
Definition OPT_Disable_Display : Z := 0x00.
Definition OPT_Enable_Cursor : Z := 0x02.
Definition OPT_Disable_Cursor : Z := 0x00.
Definition OPT_Enable_Blink : Z := 0x01.
Definition OPT_Disable_Blink : Z := 0x00.

Definition OPT_Display_Move : Z := 0x08.
Definition OPT_Cursor_Move : Z := 0x00.
Definition OPT_Move_Right : Z := 0x04.
Definition OPT_Move_Left : Z := 0x00.

Definition OPT_8Bit_Mode : Z := 0x10.
Definition OPT_4Bit_Mode : Z := 0x00.
Definition OPT_2_Lines : Z := 0x08.
Definition OPT_1_Lines : Z := 0x00.
Definition OPT_5x10_Dots : Z := 0x04.
Definition OPT_5x8_Dots : Z := 0x00.

Definition PIN_BACKLIGHT : Z := 0x08.
Definition PIN_EN : Z := 0x04.
Definition PIN_RW : Z := 0x02.
Definition PIN_RS : Z := 0x01.

Inductive LcdType := LCD_UNKNOWN | LCD_16x2 | LCD_20x4.

(** [ShowOptions]: the constants come from [1 << iota] with [iota]
    counting from the first line of the block, so SHOW_LINE_1 is 2. *)
Definition SHOW_NO_OPTIONS : Z := 0.
Definition SHOW_LINE_1 : Z := Z.shiftl 1 1.
Definition SHOW_LINE_2 : Z := Z.shiftl 1 2.
Definition SHOW_LINE_3 : Z := Z.shiftl 1 3.
Definition SHOW_LINE_4 : Z := Z.shiftl 1 4.
Definition SHOW_ELIPSE_IF_NOT_FIT : Z := Z.shiftl 1 5.
Definition SHOW_BLANK_PADDING : Z := Z.shiftl 1 6.

(** ** Machine arithmetic *)

(** Conversion to [byte]: the low 8 bits. *)
Definition to_byte (x : Z) : Z := x mod 256.

(** [a &^ b] on bytes. *)
Definition and_not (a b : Z) : Z := Z.ldiff a b.

(** [time.Duration] values, in nanoseconds. *)
Definition Nanosecond : Z := 1.
Definition Microsecond : Z := 1000.
Definition Millisecond : Z := 1000000.

(** ** The session, the bus and the clock *)

Record Lcd := mkLcd {
  backlight : bool;
  lcdType : LcdType;
  writeStrobeDelay : Z;
  resetStrobeDelay : Z;
  active : bool;
  displayFunction : Z;
  displayControl : Z;
  displayMode : Z
}.

(** What the outside sees: a byte accepted by the bus, or the program
    sleeping. *)
Inductive event :=
| Wire (b : Z)
| Sleep (ns : Z).

(** An error value returned by a method. *)
Inductive error :=
| ErrTransport (call : nat)
| ErrPosition (pos hi : Z)
| ErrLine (line hi : Z).

(** The bus is an external collaborator: [bus_fails k] tells whether its
    k-th [WriteBytes] call reports an error.  [calls] counts the calls made
    so far and [trace] lists the events so far, oldest first. *)
Record World := mkWorld {
  bus_fails : nat -> bool;
  calls : nat;
  trace : list event
}.

Record State := mkState {
  lcd : Lcd;
  world : World
}.

(** Run-time panics of the Go code. *)
Inductive panic :=
| IndexOutOfRange (idx len : Z)
| SliceOutOfRange (idx len : Z)
| NegativeRepeat (count : Z).

(** A computation returns, panics, or (for the one unbounded [for] loop)
    exhausts the iteration budget of the model. *)
Inductive outcome (A : Type) :=
| Ret (a : A)
| Panicked (p : panic)
| OutOfFuel.
Arguments Ret {A} a.
Arguments Panicked {A} p.
Arguments OutOfFuel {A}.

Definition M (A : Type) : Type := State -> outcome A * State.

Definition ret {A} (a : A) : M A := fun s => (Ret a, s).

Definition bind {A B} (m : M A) (k : A -> M B) : M B :=
  fun s =>
    match m s with
    | (Ret a, s') => k a s'
    | (Panicked p, s') => (Panicked p, s')
    | (OutOfFuel, s') => (OutOfFuel, s')
    end.

Definition lift {A} (o : outcome A) : M A := fun s => (o, s).

Declare Scope go_scope.
Delimit Scope go_scope with go.
Notation "x <- m ;; k" := (bind m (fun x => k))
  (at level 61, m at next level, right associativity) : go_scope.
Notation "m ;;; k" := (bind m (fun _ => k))
  (at level 61, right associativity) : go_scope.
(** [err := m; if err != nil { return err }; k] *)
Notation "'check' m ;; k" :=
  (bind m (fun err => match err with Some e => ret (Some e) | None => k end))
  (at level 61, m at next level, right associativity) : go_scope.
Local Open Scope go_scope.

(** The same for pure code that may panic. *)
Definition obind {A B} (o : outcome A) (k : A -> outcome B) : outcome B :=
  match o with
  | Ret a => k a
  | Panicked p => Panicked p
  | OutOfFuel => OutOfFuel
  end.
Notation "x <~ o ;; k" := (obind o (fun x => k))
  (at level 61, o at next level, right associativity) : go_scope.

Definition get_lcd : M Lcd := fun s => (Ret (lcd s), s).
Definition set_lcd (l : Lcd) : M unit :=
  fun s => (Ret tt, mkState l (world s)).

(** [time.Sleep(d)] *)
Definition sleep (ns : Z) : M unit :=
  fun s =>
    let w := world s in
    (Ret tt, mkState (lcd s) (mkWorld (bus_fails w) (calls w) (trace w ++ [Sleep ns]))).

(** [lcd.i2c.WriteBytes([]byte{b})] *)
Definition i2c_WriteBytes (b : Z) : M (option error) :=
  fun s =>
    let w := world s in
    if bus_fails w (calls w)
    then (Ret (Some (ErrTransport (calls w))),
          mkState (lcd s) (mkWorld (bus_fails w) (S (calls w)) (trace w)))
    else (Ret None,
          mkState (lcd s) (mkWorld (bus_fails w) (S (calls w)) (trace w ++ [Wire b]))).

(** ** The protocol encoder *)

Record rawData := mkRaw { Data : Z; Delay : Z }.

Fixpoint writeRawDataSeq (seq : list rawData) : M (option error) :=
  match seq with
  | [] => ret None
  | item :: rest =>
      check i2c_WriteBytes (Data item) ;;
      sleep (Delay item) ;;;
      writeRawDataSeq rest
  end.

Definition writeDataWithStrobe (data : Z) : M (option error) :=
  l <- get_lcd ;;
  let data := if backlight l then Z.lor data PIN_BACKLIGHT else data in
  let seq :=
    [ mkRaw data (50 * 1000 * Nanosecond);
      mkRaw (Z.lor data PIN_EN) (writeStrobeDelay l * Microsecond);
      mkRaw data (resetStrobeDelay l * Microsecond) ] in
  writeRawDataSeq seq.

Definition writeByte (data controlPins : Z) : M (option error) :=
  check writeDataWithStrobe (Z.lor (Z.land data 0xF0) controlPins) ;;
  check writeDataWithStrobe (Z.lor (Z.land (to_byte (Z.shiftl data 4)) 0xF0) controlPins) ;;
  ret None.

(** ** Strings, slices and indexing as Go has them *)

Definition len (s : string) : Z := Z.of_nat (String.length s).

Fixpoint take (n : nat) (s : string) : string :=
  match n, s with
  | S n', String c s' => String c (take n' s')
  | _, _ => EmptyString
  end.

Fixpoint drop (n : nat) (s : string) : string :=
  match n, s with
  | S n', String _ s' => drop n' s'
  | _, _ => s
  end.

(** [s[:j]] *)
Definition slice_to (s : string) (j : Z) : outcome string :=
  if (0 <=? j) && (j <=? len s) then Ret (take (Z.to_nat j) s)
  else Panicked (SliceOutOfRange j (len s)).

(** [s[j:]] *)
Definition slice_from (s : string) (j : Z) : outcome string :=
  if (0 <=? j) && (j <=? len s) then Ret (drop (Z.to_nat j) s)
  else Panicked (SliceOutOfRange j (len s)).

Fixpoint repeat_string (s : string) (n : nat) : string :=
  match n with
  | O => EmptyString
  | S n' => (s ++ repeat_string s n')%string
  end.

(** [strings.Repeat(s, count)] panics on a negative count. *)
Definition Repeat (s : string) (count : Z) : outcome string :=
  if count <? 0 then Panicked (NegativeRepeat count)
  else Ret (repeat_string s (Z.to_nat count)).

Definition llen {A} (l : list A) : Z := Z.of_nat (List.length l).

(** [l[i]] *)
Definition index {A} (l : list A) (i : Z) : outcome A :=
  if (0 <=? i) && (i <? llen l) then
    match nth_error l (Z.to_nat i) with
    | Some a => Ret a
    | None => Panicked (IndexOutOfRange i (llen l))
    end
  else Panicked (IndexOutOfRange i (llen l)).

Fixpoint list_set {A} (l : list A) (n : nat) (v : A) : list A :=
  match l, n with
  | [], _ => []
  | _ :: r, O => v :: r
  | a :: r, S n' => a :: list_set r n' v
  end.

(** [l[i] = v] *)
Definition store {A} (l : list A) (i : Z) (v : A) : outcome (list A) :=
  if (0 <=? i) && (i <? llen l) then Ret (list_set l (Z.to_nat i) v)
  else Panicked (IndexOutOfRange i (llen l)).

Definition byte_of (c : ascii) : Z := Z.of_nat (nat_of_ascii c).

(** *** [for _, c := range line]: UTF-8 decoding

    An invalid sequence yields U+FFFD and advances by one byte. *)

Definition RuneError : Z := 0xFFFD.

Inductive lead :=
| LeadAscii
| LeadInvalid
| LeadMulti (size : nat) (lo hi : Z).

(** The [first] and [acceptRanges] tables of unicode/utf8. *)
Definition first (b : Z) : lead :=
  if b <? 0x80 then LeadAscii
  else if b <? 0xC2 then LeadInvalid
  else if b <? 0xE0 then LeadMulti 2 0x80 0xBF
  else if b =? 0xE0 then LeadMulti 3 0xA0 0xBF
  else if b <? 0xED then LeadMulti 3 0x80 0xBF
  else if b =? 0xED then LeadMulti 3 0x80 0x9F
  else if b <? 0xF0 then LeadMulti 3 0x80 0xBF
  else if b =? 0xF0 then LeadMulti 4 0x90 0xBF
  else if b <? 0xF4 then LeadMulti 4 0x80 0xBF
  else if b =? 0xF4 then LeadMulti 4 0x80 0x8F
  else LeadInvalid.

Definition outside (b lo hi : Z) : bool := (b <? lo) || (hi <? b).

Fixpoint runes (s : string) : list Z :=
  match s with
  | EmptyString => []
  | String c0 t1 =>
      let s0 := byte_of c0 in
      match first s0 with
      | LeadAscii => s0 :: runes t1
      | LeadInvalid => RuneError :: runes t1
      | LeadMulti sz lo hi =>
          match t1 with
          | EmptyString => RuneError :: runes t1
          | String c1 t2 =>
              let s1 := byte_of c1 in
              if outside s1 lo hi then RuneError :: runes t1
              else if (sz <=? 2)%nat then
                Z.lor (Z.shiftl (Z.land s0 0x1F) 6) (Z.land s1 0x3F) :: runes t2
              else
                match t2 with
                | EmptyString => RuneError :: runes t1
                | String c2 t3 =>
                    let s2 := byte_of c2 in
                    if outside s2 0x80 0xBF then RuneError :: runes t1
                    else if (sz <=? 3)%nat then
                      Z.lor (Z.lor (Z.shiftl (Z.land s0 0x0F) 12)
                                   (Z.shiftl (Z.land s1 0x3F) 6))
                            (Z.land s2 0x3F) :: runes t3
                    else
                      match t3 with
                      | EmptyString => RuneError :: runes t1
                      | String c3 t4 =>
                          let s3 := byte_of c3 in
                          if outside s3 0x80 0xBF then RuneError :: runes t1
                          else
                            Z.lor (Z.lor (Z.lor (Z.shiftl (Z.land s0 0x07) 18)
                                                (Z.shiftl (Z.land s1 0x3F) 12))
                                         (Z.shiftl (Z.land s2 0x3F) 6))
                                  (Z.land s3 0x3F) :: runes t4
                      end
                end
          end
      end
  end.

(** ** The text layout engine *)

Definition flag (options bit : Z) : bool := negb (Z.land options bit =? 0).

(** [for i := 0; i < len(lines); i++ { if lines[i] { startLine = i; break } }] *)
Fixpoint scan_up (lines : list bool) (i : Z) : Z :=
  match lines with
  | [] => -1
  | b :: rest => if b then i else scan_up rest (i + 1)
  end.

(** [for i := len(lines) - 1; i >= 0; i-- { if lines[i] { endLine = i; break } }],
    with [count] standing for [i + 1]. *)
Fixpoint scan_down (lines : list bool) (count : nat) : Z :=
  match count with
  | O => -1
  | S i => if nth i lines false then Z.of_nat i else scan_down lines i
  end.

Definition getLineRange (options : Z) : Z * Z :=
  let lines :=
    [ flag options SHOW_LINE_1; flag options SHOW_LINE_2;
      flag options SHOW_LINE_3; flag options SHOW_LINE_4 ] in
  (scan_up lines 0, scan_down lines (List.length lines)).

Definition getSize (l : Lcd) : Z * Z :=
  match lcdType l with
  | LCD_16x2 => (16, 2)
  | LCD_20x4 => (20, 4)
  | LCD_UNKNOWN => (-1, -1)
  end.

(** The chunking loop of [splitText], [count] iterations at most:
    [for i := 0; i <= endLine-startLine; i++]. *)
Fixpoint split_loop (w : Z) (count : nat) (lines : list string) (text : string)
  : outcome (list string * string) :=
  match count with
  | O => Ret (lines, text)
  | S count' =>
      if len text =? 0 then Ret (lines, text)
      else
        let j := if w >? len text then len text else w in
        seg <~ slice_to text j ;;
        rest <~ slice_from text j ;;
        split_loop w count' (lines ++ [seg]) rest
  end.

(** [for k := j + 1; k <= endLine-startLine; k++] *)
Fixpoint pad_loop (w : Z) (count : nat) (lines : list string)
  : outcome (list string) :=
  match count with
  | O => Ret lines
  | S count' =>
      blank <~ Repeat " " w ;;
      pad_loop w count' (lines ++ [blank])
  end.

(** The body of [splitText] once [w, _ := lcd.getSize()] is known. *)
Definition splitTextW (w : Z) (text : string) (options : Z)
  : outcome (list string) :=
  let '(startLine, endLine) := getLineRange options in
  if negb (w =? -1) && negb (startLine =? -1) && negb (endLine =? -1) then
    r <~ split_loop w (Z.to_nat (endLine - startLine + 1)) [] text ;;
    let '(lines, text) := r in
    if len text >? 0 then
      if flag options SHOW_ELIPSE_IF_NOT_FIT then
        let j := llen lines - 1 in
        lj <~ index lines j ;;
        pre <~ slice_to lj (len lj - 1) ;;
        store lines j (pre ++ "~")%string
      else Ret lines
    else
      if flag options SHOW_BLANK_PADDING then
        let j := llen lines - 1 in
        lj <~ index lines j ;;
        sp <~ Repeat " " (w - len lj) ;;
        lines <~ store lines j (lj ++ sp)%string ;;
        pad_loop w (Z.to_nat (endLine - startLine - j)) lines
      else Ret lines
  else if len text >? 0 then Ret [text]
  else Ret [].

Definition splitText (l : Lcd) (text : string) (options : Z)
  : outcome (list string) :=
  splitTextW (fst (getSize l)) text options.

(** ** Cursor positioning *)

Definition lineOffset : list Z := [0x00; 0x40; 0x14; 0x54].

Definition SetPosition (line pos : Z) : M (option error) :=
  l <- get_lcd ;;
  if negb (active l) then ret None
  else
    let '(w, h) := getSize l in
    if negb (w =? -1) && ((pos <? 0) || (pos >? w - 1)) then
      ret (Some (ErrPosition pos (w - 1)))
    else if negb (h =? -1) && ((line <? 0) || (line >? h - 1)) then
      ret (Some (ErrLine line (h - 1)))
    else
      off <- lift (index lineOffset line) ;;
      let b := to_byte (to_byte (CMD_DDRAM_Set + off) + to_byte pos) in
      writeByte b 0.

(** The text of a validation error, as [fmt.Errorf] renders it. *)
Definition decimal (z : Z) : string :=
  DecimalString.NilZero.string_of_int (Z.to_int z).

Definition Error (e : error) : option string :=
  match e with
  | ErrTransport _ => None
  | ErrPosition pos hi =>
      Some ("Cursor position " ++ decimal pos ++
            " must be within the range [0.." ++ decimal hi ++ "]")%string
  | ErrLine line hi =>
      Some ("Cursor line " ++ decimal line ++
            " must be within the range [0.." ++ decimal hi ++ "]")%string
  end.

(** ** Writing text *)

(** [for _, c := range line { err := lcd.writeByte(byte(c), PIN_RS) ... }] *)
Fixpoint write_runes (cs : list Z) : M (option error) :=
  match cs with
  | [] => ret None
  | c :: rest =>
      check writeByte (to_byte c) PIN_RS ;;
      write_runes rest
  end.

(** The [for { ... }] loop of [ShowMessage]; [fuel] bounds the number of
    iterations. *)
Fixpoint ShowMessage_loop (fuel : nat) (lines : list string)
    (startLine endLine i : Z) : M (option error) :=
  match fuel with
  | O => lift OutOfFuel
  | S fuel' =>
      check (if negb (startLine =? -1) && negb (endLine =? -1)
             then SetPosition (i + startLine) 0
             else ret None) ;;
      line <- lift (index lines i) ;;
      check write_runes (runes line) ;;
      if i =? llen lines - 1 then ret None
      else ShowMessage_loop fuel' lines startLine endLine (i + 1)
  end.

(** The call of the logger ([lg.Debugf]) has no effect on the session or
    the bus and is left out. *)
Definition ShowMessage (text : string) (options : Z) : M (option error) :=
  l <- get_lcd ;;
  if negb (active l) then ret None
  else
    lines <- lift (splitText l text options) ;;
    let '(startLine, endLine) := getLineRange options in
    ShowMessage_loop (S (List.length lines)) lines startLine endLine 0.

(** ** Control operations *)

Definition with_backlight (v : bool) (l : Lcd) : Lcd :=
  mkLcd v (lcdType l) (writeStrobeDelay l) (resetStrobeDelay l) (active l)
        (displayFunction l) (displayControl l) (displayMode l).
Definition with_strobeDelays (wd rd : Z) (l : Lcd) : Lcd :=
  mkLcd (backlight l) (lcdType l) wd rd (active l)
        (displayFunction l) (displayControl l) (displayMode l).
Definition with_active (v : bool) (l : Lcd) : Lcd :=
  mkLcd (backlight l) (lcdType l) (writeStrobeDelay l) (resetStrobeDelay l) v
        (displayFunction l) (displayControl l) (displayMode l).
Definition with_displayFunction (v : Z) (l : Lcd) : Lcd :=
  mkLcd (backlight l) (lcdType l) (writeStrobeDelay l) (resetStrobeDelay l)
        (active l) v (displayControl l) (displayMode l).
Definition with_displayControl (v : Z) (l : Lcd) : Lcd :=
  mkLcd (backlight l) (lcdType l) (writeStrobeDelay l) (resetStrobeDelay l)
        (active l) (displayFunction l) v (displayMode l).
Definition with_displayMode (v : Z) (l : Lcd) : Lcd :=
  mkLcd (backlight l) (lcdType l) (writeStrobeDelay l) (resetStrobeDelay l)
        (active l) (displayFunction l) (displayControl l) v.

Definition modify (f : Lcd -> Lcd) : M unit :=
  l <- get_lcd ;; set_lcd (f l).

(** [err := lcd.writeByte(cmd, 0); time.Sleep(d); return err] *)
Definition command_then_sleep (cmd : Lcd -> Z) (d : Z) : M (option error) :=
  l <- get_lcd ;;
  err <- writeByte (cmd l) 0 ;;
  sleep d ;;;
  ret err.

Definition BacklightOn : M (option error) :=
  modify (with_backlight true) ;;;
  check writeByte 0x00 0 ;;
  ret None.

Definition BacklightOff : M (option error) :=
  modify (with_backlight false) ;;;
  check writeByte 0x00 0 ;;
  ret None.

Definition Clear : M (option error) :=
  command_then_sleep (fun _ => CMD_Clear_Display) (2 * Millisecond).

Definition Home : M (option error) :=
  command_then_sleep (fun _ => CMD_Return_Home) (2 * Millisecond).

Definition display_control_command (l : Lcd) : Z :=
  Z.lor CMD_Display_Control (displayControl l).

Definition entry_mode_command (l : Lcd) : Z :=
  Z.lor CMD_Entry_Mode (displayMode l).

Definition DisplayOn : M (option error) :=
  modify (fun l => with_displayControl (Z.lor (displayControl l) OPT_Enable_Display) l) ;;;
  command_then_sleep display_control_command (2 * Millisecond).

Definition DisplayOff : M (option error) :=
  modify (fun l => with_displayControl (and_not (displayControl l) OPT_Enable_Display) l) ;;;
  command_then_sleep display_control_command (2 * Millisecond).

Definition BlinkOn : M (option error) :=
  modify (fun l => with_displayControl (Z.lor (displayControl l) OPT_Enable_Blink) l) ;;;
  command_then_sleep display_control_command (2 * Millisecond).

Definition BlinkOff : M (option error) :=
  modify (fun l => with_displayControl (and_not (displayControl l) OPT_Enable_Blink) l) ;;;
  command_then_sleep display_control_command (2 * Millisecond).

Definition CursorOn : M (option error) :=
  modify (fun l => with_displayControl (Z.lor (displayControl l) OPT_Enable_Cursor) l) ;;;
  command_then_sleep display_control_command (2 * Millisecond).

Definition CursorOff : M (option error) :=
  modify (fun l => with_displayControl (and_not (displayControl l) OPT_Enable_Cursor) l) ;;;
  command_then_sleep display_control_command (2 * Millisecond).

Definition ScrollDisplayLeft : M (option error) :=
  command_then_sleep
    (fun _ => Z.lor (Z.lor CMD_Cursor_Shift OPT_Display_Move) OPT_Move_Left)
    (2 * Millisecond).

Definition ScrollDisplayRight : M (option error) :=
  command_then_sleep
    (fun _ => Z.lor (Z.lor CMD_Cursor_Shift OPT_Display_Move) OPT_Move_Right)
    (2 * Millisecond).

Definition LeftRightDisplay : M (option error) :=
  modify (fun l => with_displayMode (Z.lor (displayMode l) OPT_EntryLeft) l) ;;;
  command_then_sleep entry_mode_command (2 * Millisecond).

Definition RightLeftDisplay : M (option error) :=
  modify (fun l => with_displayMode (and_not (displayMode l) OPT_EntryLeft) l) ;;;
  command_then_sleep entry_mode_command (2 * Millisecond).

(** ** Raw access, strobe delays, fill and shutdown *)

(** [for i, c := range buf]: returns the number of bytes written. *)
Fixpoint Write_from (i : Z) (buf : list Z) : M (Z * option error) :=
  match buf with
  | [] => ret (i, None)
  | c :: rest =>
      err <- writeByte c PIN_RS ;;
      match err with
      | Some e => ret (i, Some e)
      | None => Write_from (i + 1) rest
      end
  end.

Definition Write (buf : list Z) : M (Z * option error) := Write_from 0 buf.

Definition Command (cmd : Z) : M (option error) := writeByte cmd 0.

Definition GetStrobeDelays : M (Z * Z) :=
  l <- get_lcd ;; ret (writeStrobeDelay l, resetStrobeDelay l).

Definition SetStrobeDelays (writeDelay resetDelay : Z) : M unit :=
  modify (with_strobeDelays writeDelay resetDelay).

(** [for x := 0; x < n; x++ { err := body(x); if err != nil { return err } }] *)
Fixpoint for_each {A} (xs : list A) (body : A -> M (option error))
  : M (option error) :=
  match xs with
  | [] => ret None
  | x :: rest => check body x ;; for_each rest body
  end.

Definition upto (n : Z) : list Z := map Z.of_nat (seq 0 (Z.to_nat n)).

Definition Fill (char : Z) : M (option error) :=
  l <- get_lcd ;;
  if negb (active l) then ret None
  else
    let '(width, height) := getSize l in
    if width * height <=? 1 then ret None
    else
      for_each (upto height) (fun lineCount =>
        check SetPosition lineCount 0 ;;
        for_each (upto width) (fun _ => writeByte (to_byte char) PIN_RS)).

(** A call whose returned error is dropped. *)
Definition discard (m : M (option error)) : M unit := m ;;; ret tt.

Definition Shutdown : M unit :=
  modify (with_active false) ;;;
  sleep (250 * Millisecond) ;;;
  discard BacklightOff ;;;
  discard Clear ;;;
  discard Home.

(** ** Construction *)

Definition initial (t : LcdType) : Lcd :=
  mkLcd false t 200 30 true 0x00 0x00 0x00.

(** [NewLcd]: [None] stands for a nil session. *)
Definition NewLcd_steps : M (option error) :=
  sleep (100 * Millisecond) ;;;
  check writeByte 0x03 0 ;;
  sleep (5 * Millisecond) ;;;
  check writeByte 0x03 0 ;;
  sleep (1 * Millisecond) ;;;
  check writeByte 0x03 0 ;;
  sleep (1 * Millisecond) ;;;
  check writeByte 0x02 0 ;;
  sleep (1 * Millisecond) ;;;
  modify (with_displayFunction (Z.lor (Z.lor OPT_2_Lines OPT_5x8_Dots) OPT_4Bit_Mode)) ;;;
  check command_then_sleep (fun l => Z.lor CMD_Function_Set (displayFunction l))
        (1 * Millisecond) ;;
  modify (with_displayControl
            (Z.lor (Z.lor OPT_Enable_Display OPT_Disable_Cursor) OPT_Disable_Blink)) ;;;
  check command_then_sleep display_control_command (1 * Millisecond) ;;
  modify (with_displayMode OPT_EntryLeft) ;;;
  check command_then_sleep entry_mode_command (1 * Millisecond) ;;
  check Clear ;;
  check Home ;;
  ret None.

Definition NewLcd (i2c : World) (t : LcdType) : outcome (option Lcd * option error) * World :=
  match NewLcd_steps (mkState (initial t) i2c) with
  | (Ret None, s) => (Ret (Some (lcd s), None), world s)
  | (Ret (Some e), s) => (Ret (None, Some e), world s)
  | (Panicked p, s) => (Panicked p, world s)
  | (OutOfFuel, s) => (OutOfFuel, world s)
  end.

(** A bus that never reports an error, nothing sent yet. *)
Definition quiet_bus : World := mkWorld (fun _ => false) 0 [].

(** ** Vocabulary of the statements *)

(** The three raw transfers of one nibble: present, strobe high, strobe
    low, each followed by its hold time. *)
Definition raw_transfers (d writeDelay resetDelay : Z) : list event :=
  [ Wire d; Sleep 50000;
    Wire (Z.lor d PIN_EN); Sleep writeDelay;
    Wire d; Sleep resetDelay ].

(** A 4-bit value placed in the high half of the transfer byte, with the
    control bits and, when the backlight is on, the backlight bit. *)
Definition transfer_byte (l : Lcd) (nibble controlBits : Z) : Z :=
  let b := Z.lor (nibble * 16) controlBits in
  if backlight l then Z.lor b PIN_BACKLIGHT else b.

Definition nibble_transfer (l : Lcd) (nibble controlBits : Z) : list event :=
  raw_transfers (transfer_byte l nibble controlBits)
    (writeStrobeDelay l * 1000) (resetStrobeDelay l * 1000).

(** The events of one [writeByte]. *)
Definition byte_transfer (l : Lcd) (value controlBits : Z) : list event :=
  nibble_transfer l (value / 16) controlBits ++
  nibble_transfer l (value mod 16) controlBits.
Arguments byte_transfer : simpl never.

(** The next [n] calls of the bus succeed. *)
Definition bus_ok (w : World) (n : nat) : Prop :=
  forall k, (calls w <= k < calls w + n)%nat -> bus_fails w k = false.

(** The world after [n] more successful calls that produced [evs]. *)
Definition advance (w : World) (n : nat) (evs : list event) : World :=
  mkWorld (bus_fails w) (calls w + n) (trace w ++ evs).

Definition supported (l : Lcd) : Prop :=
  lcdType l = LCD_16x2 \/ lcdType l = LCD_20x4.

Definition is_byte (b : Z) : Prop := 0 <= b < 256.

(** A session as [NewLcd] hands it out. *)
Definition fresh (t : LcdType) : Lcd :=
  mkLcd false t 200 30 true 0x08 0x04 0x02.

(** A bus whose every call reports an error. *)
Definition dead_bus : World := mkWorld (fun _ => true) 0 [].

(** The entry of the line-offset table for a line between 0 and 3. *)
Definition offset_of (line : Z) : Z := nth (Z.to_nat line) lineOffset 0.

(** The boolean forms of [supported] and of an active line range. *)
Definition supportedb (l : Lcd) : bool :=
  match lcdType l with
  | LCD_UNKNOWN => false
  | _ => true
  end.

Definition range_active (options : Z) : bool :=
  negb (fst (getLineRange options) =? -1).

(** The segment of [w] characters that starts at column [i * w]. *)
Definition segment (w : nat) (text : string) (i : nat) : string :=
  substring (i * w) w text.

(** The number of segments of width [w] that [n] characters fill. *)
Definition segments_needed (w n : nat) : nat := ((n + w - 1) / w)%nat.

Definition blanks (n : nat) : string := repeat_string " " n.

(** The number of lines of the range. *)
Definition range_lines (options : Z) : nat :=
  let '(startLine, endLine) := getLineRange options in
  Z.to_nat (endLine - startLine + 1).

(** A computation that never exhausts the iteration budget. *)
Definition terminates {A} (m : M A) : Prop :=
  forall s, fst (m s) <> OutOfFuel.

(** ** The CGRAM test pattern *)

(** [for i := 0; i < 80; i++ { writeByte(a, PIN_RS); a = a ^ 0xFF }] *)
Fixpoint cgram_loop (count : nat) (a : Z) : M (option error) :=
  match count with
  | O => ret None
  | S count' =>
      check writeByte a PIN_RS ;;
      cgram_loop count' (Z.lxor a 0xFF)
  end.

Definition TestWriteCGRam : M (option error) :=
  check writeByte CMD_CGRAM_Set 0 ;;
  cgram_loop 80 0x55.

(** ** Vocabulary of the further statements *)

(** The events of one strobed transfer and of one [writeByte], as the
    code computes the transfer bytes. *)
Definition strobe_events (l : Lcd) (d : Z) : list event :=
  raw_transfers (if backlight l then Z.lor d PIN_BACKLIGHT else d)
    (writeStrobeDelay l * 1000) (resetStrobeDelay l * 1000).

Definition byte_events (l : Lcd) (data controlPins : Z) : list event :=
  strobe_events l (Z.lor (Z.land data 0xF0) controlPins) ++
  strobe_events l (Z.lor (Z.land (to_byte (Z.shiftl data 4)) 0xF0) controlPins).

(** What a run of an operation that needs [n] bus calls and then has
    produced the events [evs] did to the bus, given the error [r] it
    returned.  With nil, all [n] calls were made and succeeded and the trace
    grew by [evs].  With the error of bus call [k], that call is the first
    one that failed and the last one made.  With a validation error, which
    only [strict = false] admits, every call made succeeded. *)
Definition run (strict : bool) (n : nat) (evs : list event)
    (w w' : World) (r : option error) : Prop :=
  match r with
  | None => w' = advance w n evs /\ bus_ok w n
  | Some (ErrTransport k) =>
      bus_fails w' = bus_fails w /\
      calls w' = S k /\ (calls w <= k < calls w + n)%nat /\
      bus_fails w k = true /\
      (forall j, (calls w <= j < k)%nat -> bus_fails w j = false)
  | Some _ =>
      strict = false /\
      bus_fails w' = bus_fails w /\
      (calls w <= calls w' <= calls w + n)%nat /\
      (forall j, (calls w <= j < calls w')%nat -> bus_fails w j = false)
  end.

(** An operation that, from the session [l], returns on every bus, and
    ends in the session [l'] when it returns nil. *)
Definition steps (strict : bool) (l : Lcd) (n : nat) (evs : list event)
    (m : M (option error)) (l' : Lcd) : Prop :=
  forall w, exists r w' lx,
    m (mkState l w) = (Ret r, mkState lx w') /\
    run strict n evs w w' r /\
    (r = None -> lx = l').

(** The same for an operation that never changes the session. *)
Definition steady (strict : bool) (l : Lcd) (n : nat) (evs : list event)
    (m : M (option error)) : Prop :=
  forall w, exists r w',
    m (mkState l w) = (Ret r, mkState l w') /\ run strict n evs w w' r.

Definition is_transport (e : error) : Prop :=
  match e with
  | ErrTransport _ => True
  | _ => False
  end.

(** The segments put back together. *)
Definition join (lines : list string) : string :=
  fold_right append "" lines.

(** The flag of display line [i], counted from 0. *)
Definition line_flag (options i : Z) : bool :=
  flag options (Z.shiftl 1 (i + 1)).

(** The events of the data bytes of a list of runes. *)
Definition data_events (l : Lcd) (cs : list Z) : list event :=
  flat_map (fun c => byte_transfer l (to_byte c) PIN_RS) cs.

(** The position-set command of a line and a column in range. *)
Definition position_command (line pos : Z) : Z :=
  to_byte (CMD_DDRAM_Set + offset_of line + pos).

(** The control-register snapshots are bytes and the strobe delays are
    16-bit values, as the field types say. *)
Definition well_formed (l : Lcd) : Prop :=
  is_byte (displayFunction l) /\ is_byte (displayControl l) /\
  is_byte (displayMode l) /\
  0 <= writeStrobeDelay l < 65536 /\ 0 <= resetStrobeDelay l < 65536.

(** A text of 7-bit characters. *)
Fixpoint ascii_text (s : string) : bool :=
  match s with
  | EmptyString => true
  | String c s' => (byte_of c <? 0x80) && ascii_text s'
  end.

Fixpoint bytes_of (s : string) : list Z :=
  match s with
  | EmptyString => []
  | String c s' => byte_of c :: bytes_of s'
  end.

(** The events of the power-on initialisation. *)
Definition init_events (l : Lcd) : list event :=
  Sleep 100000000 :: byte_events l 0x03 0 ++
  Sleep 5000000 :: byte_events l 0x03 0 ++
  Sleep 1000000 :: byte_events l 0x03 0 ++
  Sleep 1000000 :: byte_events l 0x02 0 ++
  Sleep 1000000 :: (byte_events l 0x28 0 ++ [Sleep 1000000]) ++
  (byte_events l 0x0C 0 ++ [Sleep 1000000]) ++
  (byte_events l 0x06 0 ++ [Sleep 1000000]) ++
  (byte_events l 0x01 0 ++ [Sleep 2000000]) ++
  (byte_events l 0x02 0 ++ [Sleep 2000000]).

(** The events of the shutdown sequence. *)
Definition shutdown_events (l : Lcd) : list event :=
  Sleep 250000000 :: byte_events l 0x00 0 ++
  (byte_events l 0x01 0 ++ [Sleep 2000000]) ++
  (byte_events l 0x02 0 ++ [Sleep 2000000]).

(** The bytes of the CGRAM test: [a], [a ^ 0xFF], [a], ... *)
Fixpoint alternating (count : nat) (a : Z) : list Z :=
  match count with
  | O => []
  | S count' => a :: alternating count' (Z.lxor a 0xFF)
  end.

Definition write_events (l : Lcd) (buf : list Z) : list event :=
  flat_map (fun c => byte_events l c PIN_RS) buf.

(** The events of [Fill]: for every line its position-set command and
    then [width] times the character. *)
Definition fill_events (l : Lcd) (char width height : Z) : list event :=
  flat_map
    (fun lineCount =>
       byte_transfer l (position_command lineCount 0) 0 ++
       flat_map (fun _ => byte_transfer l (to_byte char) PIN_RS) (upto width))
    (upto height).

(** Whether [ShowMessage] positions the cursor before each segment. *)
Definition positioned (options : Z) : bool :=
  let '(startLine, endLine) := getLineRange options in
  negb (startLine =? -1) && negb (endLine =? -1).

(** The events and the number of bus calls of a message whose segments
    are [lines], the first one on line [line]. *)
Fixpoint message_events (l : Lcd) (ranged : bool) (line : Z)
    (lines : list string) : list event :=
  match lines with
  | [] => []
  | text :: rest =>
      ((if ranged then byte_transfer l (position_command line 0) 0 else []) ++
       data_events l (runes text)) ++
      message_events l ranged (line + 1) rest
  end.

Fixpoint message_calls (ranged : bool) (lines : list string) : nat :=
  match lines with
  | [] => 0
  | text :: rest =>
      (((if ranged then 6 else 0) + 6 * List.length (runes text)) +
       message_calls ranged rest)%nat
  end.

(** What the layout of a text on [n] lines of [w] characters holds when
    its segments are read in order: the text itself when it fits, followed
    by spaces up to [n * w] characters under the blank-padding option; its
    first [n * w] characters when it does not fit, the last of them
    replaced with [~] under the ellipsis option. *)
Definition flattened (w n : nat) (text : string) (options : Z) : string :=
  if (n * w <? String.length text)%nat then
    if flag options SHOW_ELIPSE_IF_NOT_FIT
    then (take (n * w - 1) text ++ "~")%string
    else take (n * w) text
  else
    if flag options SHOW_BLANK_PADDING
    then (text ++ blanks (n * w - String.length text))%string
    else text.

(** ** Exact outcomes on any bus *)

(** Among the next [n] bus calls, the first one that fails, counted from
    the next call; [None] when the bus accepts them all. *)
Fixpoint first_failure_from (fails : nat -> bool) (c n : nat) : option nat :=
  match n with
  | O => None
  | S n' =>
      if fails c then Some O
      else option_map S (first_failure_from fails (S c) n')
  end.

Definition first_failure (w : World) (n : nat) : option nat :=
  first_failure_from (bus_fails w) (calls w) n.

(** The events that precede the bus call number [j] of a sequence of
    events: a failed call leaves no byte on the wire and is followed by no
    sleep of its own. *)
Fixpoint before_wire (j : nat) (evs : list event) : list event :=
  match evs with
  | [] => []
  | Wire b :: rest =>
      match j with
      | O => []
      | S j' => Wire b :: before_wire j' rest
      end
  | Sleep d :: rest => Sleep d :: before_wire j rest
  end.

(** What [writeByte] returns and leaves behind, on any bus. *)
Definition byte_outcome (l : Lcd) (data controlPins : Z) (w : World)
  : outcome (option error) * State :=
  match first_failure w 6 with
  | None =>
      (Ret None, mkState l (advance w 6 (byte_events l data controlPins)))
  | Some j =>
      (Ret (Some (ErrTransport (j + calls w))),
       mkState l
         (mkWorld (bus_fails w) (S (j + calls w))
            (trace w ++ before_wire j (byte_events l data controlPins))))
  end.

(** What a command followed by a sleep of [d] returns and leaves behind,
    on any bus: the sleep is slept in both cases. *)
Definition command_outcome (l : Lcd) (cmd d : Z) (w : World)
  : outcome (option error) * State :=
  match first_failure w 6 with
  | None =>
      (Ret None, mkState l (advance w 6 (byte_events l cmd 0 ++ [Sleep d])))
  | Some j =>
      (Ret (Some (ErrTransport (j + calls w))),
       mkState l
         (mkWorld (bus_fails w) (S (j + calls w))
            (trace w ++ before_wire j (byte_events l cmd 0) ++ [Sleep d])))
  end.

(** A run that the validation error [e] stops: either the bus accepts
    the [n] calls that come before it, the events are [evs] and [e] is
    returned, or one of these calls fails first and the run ends there with
    that call's error. *)
Definition stopped_by (e : error) (n : nat) (evs : list event)
    (w w' : World) (r : option error) : Prop :=
  (bus_ok w n /\ r = Some e /\ w' = advance w n evs) \/
  (exists k, r = Some (ErrTransport k) /\ run true n evs w w' r).

Definition halts (l : Lcd) (e : error) (n : nat) (evs : list event)
    (m : M (option error)) : Prop :=
  forall w, exists r w',
    m (mkState l w) = (Ret r, mkState l w') /\ stopped_by e n evs w w' r.

(** The number of segments whose line is on the display. *)
Definition on_display (l : Lcd) (options : Z) (lines : list string) : nat :=
  if positioned options && supportedb l
  then Nat.min (List.length lines)
               (Z.to_nat (snd (getSize l) - fst (getLineRange options)))
  else List.length lines.

(** * Properties *)

(** ** Nibble framing *)

Ltac split_bus :=
  repeat match goal with
         | |- context [if ?f ?k then _ else _] => destruct (f k) eqn:?; simpl
         end.

Ltac run_monad :=
  unfold bind, get_lcd, set_lcd, modify, lift, ret, sleep, i2c_WriteBytes; simpl.

Lemma high_nibble_eq d : is_byte d -> Z.land d 0xF0 = (d / 16) * 16.
Proof.
  unfold is_byte. intros H.
  change 0xF0 with (Z.ldiff (Z.ones 8) (Z.ones 4)).
  rewrite Z.ldiff_land, Z.land_assoc.
  rewrite Z.land_ones by lia. rewrite Z.mod_small by (simpl; lia).
  rewrite <- Z.ldiff_land. rewrite Z.ldiff_ones_r by lia.
  rewrite Z.shiftr_div_pow2, Z.shiftl_mul_pow2 by lia. reflexivity.
Qed.

Lemma low_nibble_eq d : is_byte d ->
  Z.land (to_byte (Z.shiftl d 4)) 0xF0 = (d mod 16) * 16.
Proof.
  unfold is_byte. intros H. unfold to_byte. rewrite Z.shiftl_mul_pow2 by lia.
  change (2 ^ 4) with 16.
  assert (E : (d * 16) mod 256 = (d mod 16) * 16).
  { change 256 with (16 * 16). rewrite Z.mul_mod_distr_r by lia. reflexivity. }
  rewrite E. rewrite high_nibble_eq.
  - rewrite Z.div_mul by lia. reflexivity.
  - pose proof (Z.mod_pos_bound d 16). unfold is_byte. lia.
Qed.

Lemma bus_ok_weaken w n m : (m <= n)%nat -> bus_ok w n -> bus_ok w m.
Proof. unfold bus_ok. intros Hle H k Hk. apply H. lia. Qed.

Lemma bus_ok_advance w n m evs :
  bus_ok w (n + m) -> bus_ok (advance w n evs) m.
Proof. unfold bus_ok, advance. simpl. intros H k Hk. apply H. lia. Qed.

Lemma advance_advance w n m e1 e2 :
  advance (advance w n e1) m e2 = advance w (n + m) (e1 ++ e2).
Proof.
  unfold advance. simpl. now rewrite List.app_assoc, Nat.add_assoc.
Qed.

Lemma writeDataWithStrobe_ok l w d :
  bus_ok w 3 ->
  writeDataWithStrobe d (mkState l w) =
  (Ret None,
   mkState l (advance w 3
     (raw_transfers (if backlight l then Z.lor d PIN_BACKLIGHT else d)
        (writeStrobeDelay l * 1000) (resetStrobeDelay l * 1000)))).
Proof.
  destruct w as [f c t]. unfold bus_ok, advance. simpl. intros H.
  unfold writeDataWithStrobe. run_monad. run_monad.
  rewrite (H c) by lia. simpl.
  rewrite (H (S c)) by lia. simpl.
  rewrite (H (S (S c))) by lia. simpl.
  rewrite <- !List.app_assoc. simpl.
  replace (c + 3)%nat with (S (S (S c))) by lia.
  unfold Microsecond, Nanosecond. reflexivity.
Qed.

Lemma writeByte_ok l w data controlPins :
  is_byte data -> bus_ok w 6 ->
  writeByte data controlPins (mkState l w) =
  (Ret None, mkState l (advance w 6 (byte_transfer l data controlPins))).
Proof.
  intros Hd H. unfold writeByte, bind at 1.
  rewrite writeDataWithStrobe_ok by (eapply bus_ok_weaken; [|exact H]; lia).
  unfold bind at 1.
  rewrite writeDataWithStrobe_ok by (apply bus_ok_advance; exact H).
  unfold ret. rewrite advance_advance. simpl Nat.add.
  rewrite high_nibble_eq, low_nibble_eq by assumption.
  reflexivity.
Qed.

(** Whatever the bus does, [writeByte] returns and leaves the session
    as it was. *)
Lemma writeByte_total data controlPins s :
  exists err w',
    writeByte data controlPins s = (Ret err, mkState (lcd s) w') /\
    bus_fails w' = bus_fails (world s).
Proof.
  destruct s as [l [f c t]].
  unfold writeByte, writeDataWithStrobe. run_monad. run_monad.
  split_bus; eauto.
Qed.

(** A failing first call is reported and nothing reaches the wire. *)
Lemma writeByte_fails_at_once data controlPins l w :
  bus_fails w (calls w) = true ->
  writeByte data controlPins (mkState l w) =
  (Ret (Some (ErrTransport (calls w))),
   mkState l (mkWorld (bus_fails w) (S (calls w)) (trace w))).
Proof.
  destruct w as [f c t]. simpl. intros H.
  unfold writeByte, writeDataWithStrobe. run_monad. run_monad.
  rewrite H. reflexivity.
Qed.

(** The enable bit: set in every strobe-high transfer, and clear in the
    present and strobe-low transfers whenever the control bits leave it
    clear, as the values 0 and PIN_RS used by every caller do. *)
Lemma strobe_high_enable d : Z.testbit (Z.lor d PIN_EN) 2 = true.
Proof. rewrite Z.lor_spec. change (Z.testbit PIN_EN 2) with true. apply orb_true_r. Qed.

Lemma present_enable_low l nibble controlBits :
  Z.testbit controlBits 2 = false ->
  Z.testbit (transfer_byte l nibble controlBits) 2 = false.
Proof.
  intros H. unfold transfer_byte.
  assert (E : Z.testbit (Z.lor (nibble * 16) controlBits) 2 = false).
  { rewrite Z.lor_spec, H. change 16 with (2 ^ 4).
    rewrite Z.mul_pow2_bits_low by lia. reflexivity. }
  destruct (backlight l); [rewrite Z.lor_spec, E|exact E]; reflexivity.
Qed.

(** C5: with a bus that accepts the six bytes, [writeByte] sends exactly
    two nibble transfers, the high nibble of the value and then the low
    one, each in the high four bits of the transfer byte together with the
    control bits (and the backlight bit when the backlight is on), and each
    made of three raw transfers: present, strobe high held for the write
    strobe delay, strobe low held for the reset strobe delay.  The enable
    bit is set in the strobe-high transfer, and clear in the other two when
    the control bits leave it clear. *)
Theorem writeByte_nibble_framing (s : State) (data controlPins : Z) :
  is_byte data -> bus_ok (world s) 6 ->
  writeByte data controlPins s =
  (Ret None,
   mkState (lcd s)
     (advance (world s) 6
        (raw_transfers (transfer_byte (lcd s) (data / 16) controlPins)
           (writeStrobeDelay (lcd s) * 1000) (resetStrobeDelay (lcd s) * 1000) ++
         raw_transfers (transfer_byte (lcd s) (data mod 16) controlPins)
           (writeStrobeDelay (lcd s) * 1000) (resetStrobeDelay (lcd s) * 1000)))) /\
  (backlight (lcd s) = true ->
   forall nibble,
     Z.testbit (transfer_byte (lcd s) nibble controlPins) 3 = true /\
     Z.testbit (Z.lor (transfer_byte (lcd s) nibble controlPins) PIN_EN) 3 = true) /\
  (forall nibble,
     Z.testbit (Z.lor (transfer_byte (lcd s) nibble controlPins) PIN_EN) 2 = true) /\
  (Z.testbit controlPins 2 = false ->
   forall nibble, Z.testbit (transfer_byte (lcd s) nibble controlPins) 2 = false).
Proof.
  intros Hd Hb. split; [|split; [|split]].
  - destruct s as [l w]. simpl. now apply writeByte_ok.
  - intros Hbl nibble. unfold transfer_byte. rewrite Hbl. cbv beta zeta.
    rewrite !Z.lor_spec. change (Z.testbit PIN_BACKLIGHT 3) with true.
    now rewrite !orb_true_r.
  - intros nibble. apply strobe_high_enable.
  - intros Hc nibble. now apply present_enable_low.
Qed.

Lemma writeByte_nibble_framing_witness :
  let l := with_backlight true (fresh LCD_16x2) in
  writeByte 0x41 PIN_RS (mkState l quiet_bus) =
  (Ret None,
   mkState l
     (mkWorld (fun _ => false) 6
        [ Wire 0x49; Sleep 50000; Wire 0x4D; Sleep 200000; Wire 0x49; Sleep 30000;
          Wire 0x19; Sleep 50000; Wire 0x1D; Sleep 200000; Wire 0x19; Sleep 30000 ])) /\
  Z.testbit (transfer_byte l 4 PIN_RS) 3 = true /\
  Z.testbit (transfer_byte l 4 PIN_RS) 2 = false.
Proof.
  pose proof (writeByte_nibble_framing
                (mkState (with_backlight true (fresh LCD_16x2)) quiet_bus)
                0x41 PIN_RS) as H.
  destruct H as (H1 & H2 & _ & H4).
  - unfold is_byte. lia.
  - intros k _. reflexivity.
  - split; [exact H1|]. split.
    + exact (proj1 (H2 eq_refl 4)).
    + exact (H4 eq_refl 4).
Defined.

(** ** Control registers *)

Lemma command_then_sleep_total cmd d s :
  exists err w',
    command_then_sleep cmd d s = (Ret err, mkState (lcd s) w') /\
    bus_fails w' = bus_fails (world s).
Proof.
  unfold command_then_sleep, bind at 1, get_lcd.
  unfold bind at 1.
  destruct (writeByte_total (cmd (lcd s)) 0 s) as (err & w' & E & F).
  rewrite E. run_monad. eauto.
Qed.

Lemma command_then_sleep_ok cmd d l w :
  is_byte (cmd l) -> bus_ok w 6 ->
  command_then_sleep cmd d (mkState l w) =
  (Ret None, mkState l (advance w 6 (byte_transfer l (cmd l) 0 ++ [Sleep d]))).
Proof.
  intros Hc Hb. unfold command_then_sleep, bind at 1, get_lcd.
  unfold bind at 1. simpl lcd.
  rewrite writeByte_ok by assumption.
  unfold sleep, ret, advance. cbn [lcd world trace calls bus_fails].
  now rewrite List.app_assoc.
Qed.

Lemma control_op_total f cmd d s :
  exists err w',
    (modify f ;;; command_then_sleep cmd d) s =
    (Ret err, mkState (f (lcd s)) w') /\
    bus_fails w' = bus_fails (world s).
Proof.
  unfold bind at 1. unfold modify. run_monad.
  destruct (command_then_sleep_total cmd d (mkState (f (lcd s)) (world s)))
    as (err & w' & E & F).
  rewrite E. simpl. eauto.
Qed.

Lemma control_op_lcd f cmd d s :
  lcd (snd ((modify f ;;; command_then_sleep cmd d) s)) = f (lcd s).
Proof.
  destruct (control_op_total f cmd d s) as (err & w' & E & _).
  now rewrite E.
Qed.

Lemma control_op_ok f cmd d l w :
  is_byte (cmd (f l)) -> bus_ok w 6 ->
  (modify f ;;; command_then_sleep cmd d) (mkState l w) =
  (Ret None,
   mkState (f l) (advance w 6 (byte_transfer (f l) (cmd (f l)) 0 ++ [Sleep d]))).
Proof.
  intros Hc Hb. unfold bind at 1. unfold modify. run_monad.
  now rewrite command_then_sleep_ok.
Qed.

(** C3, as the claim states it, fails: after a transport error in
    [CursorOn] the stored display-control snapshot already holds the new
    value. *)
Lemma snapshot_after_error_counterexample :
  ~ (forall s e,
        fst (CursorOn s) = Ret (Some e) ->
        displayControl (lcd (snd (CursorOn s))) = displayControl (lcd s)).
Proof.
  intros H.
  specialize (H (mkState (fresh LCD_16x2) dead_bus) (ErrTransport 0) eq_refl).
  vm_compute in H. discriminate H.
Qed.

Lemma writeByte_exact l w data controlPins :
  writeByte data controlPins (mkState l w) = byte_outcome l data controlPins w.
Proof.
  destruct w as [f c t].
  unfold byte_outcome, first_failure, advance, byte_events, strobe_events,
    raw_transfers.
  cbn [bus_fails calls trace].
  replace (c + 6)%nat with (6 + c)%nat by lia.
  unfold writeByte, writeDataWithStrobe. run_monad. run_monad.
  split_bus; rewrite ?app_nil_r, <- ?List.app_assoc; reflexivity.
Qed.

Lemma command_then_sleep_exact cmd d l w :
  command_then_sleep cmd d (mkState l w) = command_outcome l (cmd l) d w.
Proof.
  unfold command_then_sleep, bind at 1, get_lcd. unfold bind at 1. cbn [lcd].
  rewrite writeByte_exact. unfold byte_outcome, command_outcome.
  destruct (first_failure w 6) as [j|]; unfold bind, sleep, ret; cbn [lcd world].
  - unfold advance. cbn [bus_fails calls trace]. now rewrite <- List.app_assoc.
  - unfold advance. cbn [bus_fails calls trace]. now rewrite <- List.app_assoc.
Qed.

Lemma control_op_exact f cmd d l w :
  (modify f ;;; command_then_sleep cmd d) (mkState l w) =
  command_outcome (f l) (cmd (f l)) d w.
Proof.
  unfold bind at 1. unfold modify. run_monad.
  apply command_then_sleep_exact.
Qed.

Lemma command_outcome_lcd l cmd d w : lcd (snd (command_outcome l cmd d w)) = l.
Proof. unfold command_outcome. now destruct (first_failure w 6). Qed.

(** C3, amended: every control operation first replaces the stored
    snapshot with the new register value and then transmits the command
    byte made of the command base and that new value, with control bits 0,
    and sleeps 2 ms.  On every bus the outcome is that of this command sent
    from the session that already holds the new snapshot: the stored
    snapshot holds the new value whether the transmission succeeds or the
    bus reports an error at any of the six raw transfers, and the bytes on
    the wire are those of the new value up to the failing transfer. *)
Theorem snapshot_replaced_before_transmission (s : State) :
  let dc := displayControl (lcd s) in
  let dm := displayMode (lcd s) in
  let control v :=
    command_outcome (with_displayControl v (lcd s))
      (Z.lor CMD_Display_Control v) 2000000 (world s) in
  let mode v :=
    command_outcome (with_displayMode v (lcd s))
      (Z.lor CMD_Entry_Mode v) 2000000 (world s) in
  DisplayOn s = control (Z.lor dc OPT_Enable_Display) /\
  DisplayOff s = control (and_not dc OPT_Enable_Display) /\
  CursorOn s = control (Z.lor dc OPT_Enable_Cursor) /\
  CursorOff s = control (and_not dc OPT_Enable_Cursor) /\
  BlinkOn s = control (Z.lor dc OPT_Enable_Blink) /\
  BlinkOff s = control (and_not dc OPT_Enable_Blink) /\
  LeftRightDisplay s = mode (Z.lor dm OPT_EntryLeft) /\
  RightLeftDisplay s = mode (and_not dm OPT_EntryLeft) /\
  (forall l cmd d w, lcd (snd (command_outcome l cmd d w)) = l).
Proof.
  cbv zeta. destruct s as [l w]. cbn [lcd world].
  unfold DisplayOn, DisplayOff, CursorOn, CursorOff, BlinkOn, BlinkOff,
    LeftRightDisplay, RightLeftDisplay.
  rewrite !control_op_exact.
  exact (conj eq_refl (conj eq_refl (conj eq_refl (conj eq_refl
          (conj eq_refl (conj eq_refl (conj eq_refl (conj eq_refl
             command_outcome_lcd)))))))).
Qed.

Lemma lor_is_byte a b : is_byte a -> is_byte b -> is_byte (Z.lor a b).
Proof.
  unfold is_byte. intros [Ha1 Ha2] [Hb1 Hb2]. split.
  - now apply Z.lor_nonneg.
  - destruct (Z.eq_dec (Z.lor a b) 0) as [->|Hn]; [lia|].
    assert (Hpos : 0 < Z.lor a b) by (pose proof (proj2 (Z.lor_nonneg a b) (conj Ha1 Hb1)); lia).
    apply Z.log2_lt_cancel. rewrite Z.log2_lor by assumption.
    change (Z.log2 256) with 8.
    assert (La : Z.log2 a < 8).
    { destruct (Z.eq_dec a 0) as [->|]; [simpl; lia|].
      apply Z.log2_lt_pow2; simpl; lia. }
    assert (Lb : Z.log2 b < 8).
    { destruct (Z.eq_dec b 0) as [->|]; [simpl; lia|].
      apply Z.log2_lt_pow2; simpl; lia. }
    lia.
Qed.

(** C9: on an active session whose bus accepts both transmissions,
    [CursorOn] followed by [BlinkOn] leaves the stored display-control
    snapshot with the cursor and the blink bit both set, and the byte
    transmitted last is the display-control command with both bits set:
    each operation ORs its bit into the stored snapshot. *)
Theorem CursorOn_then_BlinkOn (s : State) :
  is_byte (displayControl (lcd s)) -> bus_ok (world s) 12 ->
  let dc1 := Z.lor (displayControl (lcd s)) OPT_Enable_Cursor in
  let dc2 := Z.lor dc1 OPT_Enable_Blink in
  let l1 := with_displayControl dc1 (lcd s) in
  let l2 := with_displayControl dc2 (lcd s) in
  let sent := Z.lor CMD_Display_Control dc2 in
  exists s1 s2,
    CursorOn s = (Ret None, s1) /\
    BlinkOn s1 = (Ret None, s2) /\
    lcd s2 = l2 /\
    trace (world s2) =
      trace (world s1) ++ byte_transfer l2 sent 0 ++ [Sleep 2000000] /\
    Z.testbit dc2 1 = true /\ Z.testbit dc2 0 = true /\
    Z.testbit sent 1 = true /\ Z.testbit sent 0 = true /\
    Z.testbit sent 3 = true.
Proof.
  intros Hdc Hb. cbv zeta. destruct s as [l w]. simpl in *.
  assert (B2 : is_byte OPT_Enable_Cursor) by (unfold is_byte, OPT_Enable_Cursor; lia).
  assert (B1 : is_byte OPT_Enable_Blink) by (unfold is_byte, OPT_Enable_Blink; lia).
  assert (B8 : is_byte CMD_Display_Control) by (unfold is_byte, CMD_Display_Control; lia).
  eexists. eexists.
  split; [|split].
  - unfold CursorOn. apply control_op_ok.
    + unfold display_control_command, with_displayControl.
      cbn [displayControl]. auto using lor_is_byte.
    + eapply bus_ok_weaken; [|exact Hb]; lia.
  - unfold BlinkOn. apply control_op_ok.
    + unfold display_control_command, with_displayControl.
      cbn [displayControl]. auto using lor_is_byte.
    + apply bus_ok_advance. exact Hb.
  - assert (T1 : forall x, Z.testbit (Z.lor (Z.lor x OPT_Enable_Cursor) OPT_Enable_Blink) 1 = true).
    { intros x. rewrite !Z.lor_spec.
      change (Z.testbit OPT_Enable_Cursor 1) with true. now rewrite orb_true_r. }
    assert (T0 : forall x, Z.testbit (Z.lor (Z.lor x OPT_Enable_Cursor) OPT_Enable_Blink) 0 = true).
    { intros x. rewrite !Z.lor_spec.
      change (Z.testbit OPT_Enable_Blink 0) with true. now rewrite orb_true_r. }
    assert (T : forall x i, Z.testbit x i = true ->
                            Z.testbit (Z.lor CMD_Display_Control x) i = true).
    { intros x i E. rewrite Z.lor_spec, E. apply orb_true_r. }
    assert (T3 : forall x, Z.testbit (Z.lor CMD_Display_Control x) 3 = true).
    { intros x. rewrite Z.lor_spec. reflexivity. }
    exact (conj eq_refl (conj eq_refl (conj (T1 _) (conj (T0 _)
             (conj (T _ _ (T1 _)) (conj (T _ _ (T0 _)) (T3 _))))))).
Qed.

Lemma CursorOn_then_BlinkOn_witness :
  exists s1 s2,
    CursorOn (mkState (fresh LCD_16x2) quiet_bus) = (Ret None, s1) /\
    BlinkOn s1 = (Ret None, s2) /\
    displayControl (lcd s2) = 7.
Proof.
  destruct (CursorOn_then_BlinkOn (mkState (fresh LCD_16x2) quiet_bus))
    as (s1 & s2 & A & B & C & _).
  - unfold is_byte. simpl. lia.
  - intros k _. reflexivity.
  - exists s1, s2. split; [exact A|]. split; [exact B|].
    rewrite C. reflexivity.
Defined.

(** ** Shutdown gating *)

Lemma BacklightOff_total s :
  exists err w',
    BacklightOff s = (Ret err, mkState (with_backlight false (lcd s)) w').
Proof.
  unfold BacklightOff, bind at 1, modify. run_monad.
  destruct (writeByte_total 0 0 (mkState (with_backlight false (lcd s)) (world s)))
    as (err & w' & E & _).
  rewrite E. destruct err; simpl; eauto.
Qed.

Lemma Shutdown_total s :
  exists w',
    Shutdown s =
    (Ret tt, mkState (with_backlight false (with_active false (lcd s))) w').
Proof.
  unfold Shutdown, discard, modify. run_monad.
  match goal with
  | |- context [BacklightOff ?s0] =>
      destruct (BacklightOff_total s0) as (e1 & w1 & E1); rewrite E1
  end.
  match goal with
  | |- context [Clear ?s0] =>
      destruct (command_then_sleep_total (fun _ => CMD_Clear_Display)
                  (2 * Millisecond) s0) as (e2 & w2 & E2 & _);
      unfold Clear; rewrite E2
  end.
  match goal with
  | |- context [Home ?s0] =>
      destruct (command_then_sleep_total (fun _ => CMD_Return_Home)
                  (2 * Millisecond) s0) as (e3 & w3 & E3 & _);
      unfold Home; rewrite E3
  end.
  simpl. eauto.
Qed.

Lemma inactive_ShowMessage text options s :
  active (lcd s) = false -> ShowMessage text options s = (Ret None, s).
Proof. intros H. unfold ShowMessage. run_monad. now rewrite H. Qed.

Lemma inactive_SetPosition line pos s :
  active (lcd s) = false -> SetPosition line pos s = (Ret None, s).
Proof. intros H. unfold SetPosition. run_monad. now rewrite H. Qed.

Lemma inactive_Fill char s :
  active (lcd s) = false -> Fill char s = (Ret None, s).
Proof. intros H. unfold Fill. run_monad. now rewrite H. Qed.

(** C8: [Shutdown] always returns and leaves the session inactive, and
    from then on [ShowMessage], [SetPosition] and [Fill] return nil at
    once: the state, and with it the trace of the bus and the number of
    its calls, is what it was. *)
Theorem after_Shutdown_noop (s : State) (text : string) (options line pos char : Z) :
  let s' := snd (Shutdown s) in
  fst (Shutdown s) = Ret tt /\
  active (lcd s') = false /\
  ShowMessage text options s' = (Ret None, s') /\
  SetPosition line pos s' = (Ret None, s') /\
  Fill char s' = (Ret None, s').
Proof.
  cbv zeta. destruct (Shutdown_total s) as (w' & E). rewrite E.
  cbn [fst snd].
  assert (A : active (lcd (mkState (with_backlight false (with_active false (lcd s))) w'))
              = false) by reflexivity.
  split; [reflexivity|]. split; [exact A|].
  split; [|split].
  - now apply inactive_ShowMessage.
  - now apply inactive_SetPosition.
  - now apply inactive_Fill.
Qed.

(** ** Cursor positioning *)

Lemma to_byte_add a b c :
  to_byte (to_byte (a + b) + to_byte c) = to_byte (a + b + c).
Proof. unfold to_byte. now rewrite <- Z.add_mod by lia. Qed.

Lemma to_byte_is_byte x : is_byte (to_byte x).
Proof. unfold is_byte, to_byte. apply Z.mod_pos_bound. lia. Qed.

Lemma index_lineOffset line :
  0 <= line <= 3 -> index lineOffset line = Ret (offset_of line).
Proof.
  intros H.
  assert (C : line = 0 \/ line = 1 \/ line = 2 \/ line = 3) by lia.
  destruct C as [-> | [-> | [-> | ->]]]; reflexivity.
Qed.

Lemma index_lineOffset_out line :
  line < 0 \/ 3 < line ->
  index lineOffset line = Panicked (IndexOutOfRange line 4).
Proof.
  intros H. unfold index, llen. simpl List.length.
  destruct (0 <=? line) eqn:E1; destruct (line <? Z.of_nat 4) eqn:E2;
    simpl; try reflexivity.
  apply Z.leb_le in E1. apply Z.ltb_lt in E2. lia.
Qed.

(** C1, as the claim states it, fails: on an unknown geometry line 4 is
    not checked and indexing the four-entry table panics; nothing is
    transmitted. *)
Lemma SetPosition_unknown_counterexample :
  SetPosition 4 0 (mkState (fresh LCD_UNKNOWN) quiet_bus) =
  (Panicked (IndexOutOfRange 4 4), mkState (fresh LCD_UNKNOWN) quiet_bus).
Proof. reflexivity. Qed.

(** C1, amended: on an active session of unknown geometry [SetPosition]
    never returns a validation error, whatever the line and the position;
    and for every line from 0 to 3 and every position it calls the bus, and
    when the bus accepts the bytes it transmits the position-set command
    [0x80 + lineOffset[line] + pos] (mod 256). *)
Theorem SetPosition_unknown (s : State) (line pos : Z) :
  lcdType (lcd s) = LCD_UNKNOWN -> active (lcd s) = true ->
  (forall e, fst (SetPosition line pos s) = Ret (Some e) ->
             exists k, e = ErrTransport k) /\
  (0 <= line <= 3 ->
   SetPosition line pos s =
     writeByte (to_byte (CMD_DDRAM_Set + offset_of line + pos)) 0 s /\
   (calls (world s) < calls (world (snd (SetPosition line pos s))))%nat /\
   (bus_ok (world s) 6 ->
    SetPosition line pos s =
    (Ret None,
     mkState (lcd s)
       (advance (world s) 6
          (byte_transfer (lcd s)
             (to_byte (CMD_DDRAM_Set + offset_of line + pos)) 0))))).
Proof.
  intros Ht Ha.
  assert (E : SetPosition line pos s =
              (off <- lift (index lineOffset line) ;;
               writeByte (to_byte (CMD_DDRAM_Set + off + pos)) 0) s).
  { unfold SetPosition. unfold bind at 1, get_lcd. rewrite Ha.
    unfold getSize. rewrite Ht. cbn [negb Z.eqb andb].
    unfold bind, lift. destruct (index lineOffset line); try reflexivity.
    now rewrite to_byte_add. }
  split.
  - intros e. rewrite E. unfold bind, lift.
    destruct (index lineOffset line) as [off| |]; cbn [fst]; try discriminate.
    destruct s as [l [f c t]].
    unfold writeByte, writeDataWithStrobe. run_monad. run_monad.
    split_bus; intros Q; inversion Q; eauto.
  - intros Hl.
    assert (E' : SetPosition line pos s =
                 writeByte (to_byte (CMD_DDRAM_Set + offset_of line + pos)) 0 s).
    { rewrite E. unfold bind, lift. now rewrite index_lineOffset. }
    split; [exact E'|]. split.
    + rewrite E'. destruct s as [l [f c t]].
      unfold writeByte, writeDataWithStrobe. run_monad. run_monad.
      split_bus; lia.
    + intros Hb. rewrite E'. destruct s as [l w].
      apply writeByte_ok; [apply to_byte_is_byte | exact Hb].
Qed.

Lemma SetPosition_unknown_witness :
  SetPosition 1 300 (mkState (fresh LCD_UNKNOWN) quiet_bus) =
  (Ret None,
   mkState (fresh LCD_UNKNOWN)
     (advance quiet_bus 6 (byte_transfer (fresh LCD_UNKNOWN) 0xEC 0))).
Proof.
  refine (proj2 (proj2 (proj2 (SetPosition_unknown
            (mkState (fresh LCD_UNKNOWN) quiet_bus) 1 300 eq_refl eq_refl) _)) _).
  - lia.
  - intros k _. reflexivity.
Defined.

Ltac bool_to_Z :=
  repeat match goal with
         | H : (_ <? _) = true |- _ => apply Z.ltb_lt in H
         | H : (_ <? _) = false |- _ => apply Z.ltb_ge in H
         | H : (_ >? _) = true |- _ => apply Z.gtb_gt in H
         | H : (_ >? _) = false |- _ => rewrite Z.gtb_ltb in H
         | H : (_ <=? _) = true |- _ => apply Z.leb_le in H
         | H : (_ <=? _) = false |- _ => apply Z.leb_gt in H
         | H : (_ =? _) = true |- _ => apply Z.eqb_eq in H
         | H : (_ =? _) = false |- _ => apply Z.eqb_neq in H
         end.

Lemma SetPosition_checked s line pos w h :
  active (lcd s) = true -> getSize (lcd s) = (w, h) ->
  w <> -1 -> h <> -1 -> h <= 4 ->
  SetPosition line pos s =
  if (pos <? 0) || (pos >? w - 1) then (Ret (Some (ErrPosition pos (w - 1))), s)
  else if (line <? 0) || (line >? h - 1) then (Ret (Some (ErrLine line (h - 1))), s)
  else writeByte (to_byte (CMD_DDRAM_Set + offset_of line + pos)) 0 s.
Proof.
  intros Ha Hg Hw Hh Hh4.
  unfold SetPosition. unfold bind at 1, get_lcd. rewrite Ha, Hg.
  cbn [negb].
  destruct (w =? -1) eqn:Ew; [bool_to_Z; lia|].
  destruct (h =? -1) eqn:Eh; [bool_to_Z; lia|].
  cbn [negb andb].
  destruct ((pos <? 0) || (pos >? w - 1)); [reflexivity|].
  destruct ((line <? 0) || (line >? h - 1)) eqn:El; [reflexivity|].
  apply orb_false_elim in El. destruct El as [E1 E2]. bool_to_Z.
  unfold bind, lift. rewrite index_lineOffset by lia.
  now rewrite to_byte_add.
Qed.

Lemma supported_getSize l :
  supported l ->
  getSize l = (16, 2) \/ getSize l = (20, 4).
Proof.
  unfold supported, getSize. intros [H | H]; rewrite H; auto.
Qed.

(** C4: on an active session of a supported geometry of width w and
    height h, [SetPosition] with an in-range line and column is the
    transmission of the position-set command, which succeeds when the bus
    accepts it; a column outside [0, w-1], or else a line outside [0, h-1],
    returns the validation error that carries the offending value and the
    upper bound of its range, and leaves the state and the bus untouched;
    so success implies that both are in range. *)
Theorem SetPosition_supported (s : State) (line pos : Z) :
  supported (lcd s) -> active (lcd s) = true ->
  let w := fst (getSize (lcd s)) in
  let h := snd (getSize (lcd s)) in
  (0 <= pos <= w - 1 -> 0 <= line <= h - 1 ->
   SetPosition line pos s =
     writeByte (to_byte (CMD_DDRAM_Set + offset_of line + pos)) 0 s /\
   (bus_ok (world s) 6 ->
    SetPosition line pos s =
    (Ret None,
     mkState (lcd s)
       (advance (world s) 6
          (byte_transfer (lcd s)
             (to_byte (CMD_DDRAM_Set + offset_of line + pos)) 0))))) /\
  (pos < 0 \/ w - 1 < pos ->
   SetPosition line pos s = (Ret (Some (ErrPosition pos (w - 1))), s)) /\
  (0 <= pos <= w - 1 -> line < 0 \/ h - 1 < line ->
   SetPosition line pos s = (Ret (Some (ErrLine line (h - 1))), s)) /\
  (fst (SetPosition line pos s) = Ret None ->
   0 <= pos <= w - 1 /\ 0 <= line <= h - 1).
Proof.
  intros Hs Ha. cbv zeta.
  assert (G : exists w h, getSize (lcd s) = (w, h) /\ w <> -1 /\ h <> -1 /\ h <= 4).
  { destruct (supported_getSize _ Hs) as [E | E]; rewrite E;
      do 2 eexists; (split; [reflexivity|]); lia. }
  destruct G as (w & h & Hg & Hw & Hh & Hh4).
  pose proof (SetPosition_checked s line pos w h Ha Hg Hw Hh Hh4) as E.
  rewrite Hg. cbn [fst snd].
  destruct ((pos <? 0) || (pos >? w - 1)) eqn:Ep.
  - apply orb_true_iff in Ep.
    assert (P : pos < 0 \/ w - 1 < pos) by (destruct Ep; bool_to_Z; lia).
    rewrite E. cbn [fst].
    split; [lia|]. split; [reflexivity|]. split; [lia|]. discriminate.
  - apply orb_false_elim in Ep. destruct Ep as [P1 P2]. bool_to_Z.
    destruct ((line <? 0) || (line >? h - 1)) eqn:El.
    + apply orb_true_iff in El.
      assert (L : line < 0 \/ h - 1 < line) by (destruct El; bool_to_Z; lia).
      rewrite E. cbn [fst].
      split; [lia|]. split; [lia|]. split; [reflexivity|]. discriminate.
    + apply orb_false_elim in El. destruct El as [L1 L2]. bool_to_Z.
      split; [|split; [lia|split; [lia|intros _; lia]]].
      intros _ _. split; [exact E|].
      intros Hb. rewrite E. destruct s as [l wd].
      apply writeByte_ok; [apply to_byte_is_byte | exact Hb].
Qed.

Lemma SetPosition_supported_witness :
  SetPosition 1 15 (mkState (fresh LCD_16x2) quiet_bus) =
    (Ret None,
     mkState (fresh LCD_16x2)
       (advance quiet_bus 6 (byte_transfer (fresh LCD_16x2) 0xCF 0))) /\
  SetPosition 1 16 (mkState (fresh LCD_16x2) quiet_bus) =
    (Ret (Some (ErrPosition 16 15)), mkState (fresh LCD_16x2) quiet_bus) /\
  SetPosition 2 15 (mkState (fresh LCD_16x2) quiet_bus) =
    (Ret (Some (ErrLine 2 1)), mkState (fresh LCD_16x2) quiet_bus).
Proof.
  split; [|split].
  - refine (proj2 (proj1 (SetPosition_supported
              (mkState (fresh LCD_16x2) quiet_bus) 1 15 (or_introl eq_refl) eq_refl)
              _ _) _).
    + simpl. lia.
    + simpl. lia.
    + intros k _. reflexivity.
  - refine (proj1 (proj2 (SetPosition_supported
              (mkState (fresh LCD_16x2) quiet_bus) 1 16 (or_introl eq_refl) eq_refl))
              _).
    simpl. lia.
  - refine (proj1 (proj2 (proj2 (SetPosition_supported
              (mkState (fresh LCD_16x2) quiet_bus) 2 15 (or_introl eq_refl) eq_refl)))
              _ _).
    + simpl. lia.
    + simpl. lia.
Defined.

(** ** Line range *)

Lemma getLineRange_cases options :
  let '(startLine, endLine) := getLineRange options in
  (startLine = -1 /\ endLine = -1) \/ (0 <= startLine <= endLine /\ endLine <= 3).
Proof.
  unfold getLineRange.
  destruct (flag options SHOW_LINE_1), (flag options SHOW_LINE_2),
    (flag options SHOW_LINE_3), (flag options SHOW_LINE_4);
    cbn; lia.
Qed.

Lemma getLineRange_start options :
  fst (getLineRange options) = -1 <-> snd (getLineRange options) = -1.
Proof.
  pose proof (getLineRange_cases options) as H.
  destruct (getLineRange options) as [a b]. cbn [fst snd]. lia.
Qed.

(** ** Layout of the empty text *)

Lemma split_loop_empty w count lines :
  split_loop w count lines "" = Ret (lines, "").
Proof. destruct count; reflexivity. Qed.

Lemma splitTextW_empty w options :
  splitTextW w "" options =
  if negb (w =? -1) && range_active options && flag options SHOW_BLANK_PADDING
  then Panicked (IndexOutOfRange (-1) 0)
  else Ret [].
Proof.
  unfold splitTextW, range_active.
  pose proof (getLineRange_cases options) as H.
  destruct (getLineRange options) as [a b]. cbn [fst].
  destruct (w =? -1); cbn [negb andb]; [reflexivity|].
  destruct (a =? -1) eqn:Ea; cbn [negb andb]; [reflexivity|].
  destruct (b =? -1) eqn:Eb; [bool_to_Z; lia|]. cbn [negb].
  rewrite split_loop_empty. cbn [obind].
  change (len "" >? 0) with false. cbv iota.
  destruct (flag options SHOW_BLANK_PADDING); reflexivity.
Qed.

(** C2: what the code does on the empty text.  With a line range on a
    supported geometry and the blank-padding option, [splitText] does not
    return the empty list: it reads [lines[len(lines)-1]] of the empty list
    and panics.  In every other case it returns the empty list. *)
Theorem splitText_empty_text (l : Lcd) (options : Z) :
  splitText l "" options =
  if supportedb l && range_active options && flag options SHOW_BLANK_PADDING
  then Panicked (IndexOutOfRange (-1) 0)
  else Ret [].
Proof.
  unfold splitText. rewrite splitTextW_empty.
  unfold supportedb, getSize. destruct (lcdType l); reflexivity.
Qed.

Example splitText_empty_padding_16x2 :
  splitText (fresh LCD_16x2) "" (Z.lor SHOW_LINE_1 SHOW_BLANK_PADDING) =
  Panicked (IndexOutOfRange (-1) 0).
Proof. reflexivity. Qed.

(** ** [ShowMessage] on the empty text *)

(** C10, as the claim states it, fails: on a 16x2 display with the flag of
    line 3 the call [SetPosition(2, 0)] that precedes the read returns a
    validation error, which [ShowMessage] returns; [lines[0]] is not
    reached and nothing panics. *)
Lemma ShowMessage_empty_counterexample :
  ShowMessage "" SHOW_LINE_3 (mkState (fresh LCD_16x2) quiet_bus) =
  (Ret (Some (ErrLine 2 1)), mkState (fresh LCD_16x2) quiet_bus).
Proof. reflexivity. Qed.

(** C10, amended: on an active session, whenever [splitText] returns the
    empty list for the empty text, [ShowMessage] either returns the error
    of the [SetPosition(startLine, 0)] call that precedes the read (only
    when a line flag is set), or reads [lines[0]] of the empty list and
    panics; it never returns nil. *)
Theorem ShowMessage_empty_text (s : State) (options : Z) :
  active (lcd s) = true ->
  splitText (lcd s) "" options = Ret [] ->
  let startLine := fst (getLineRange options) in
  ShowMessage "" options s =
    (if startLine =? -1 then (Panicked (IndexOutOfRange 0 0), s)
     else match SetPosition startLine 0 s with
          | (Ret None, s') => (Panicked (IndexOutOfRange 0 0), s')
          | r => r
          end) /\
  fst (ShowMessage "" options s) <> Ret None.
Proof.
  intros Ha Hs. cbv zeta.
  assert (E : ShowMessage "" options s =
    (if fst (getLineRange options) =? -1 then (Panicked (IndexOutOfRange 0 0), s)
     else match SetPosition (fst (getLineRange options)) 0 s with
          | (Ret None, s') => (Panicked (IndexOutOfRange 0 0), s')
          | r => r
          end)).
  { unfold ShowMessage. unfold bind at 1, get_lcd. rewrite Ha. cbn [negb].
    unfold bind at 1, lift at 1. rewrite Hs.
    pose proof (getLineRange_cases options) as H.
    destruct (getLineRange options) as [a b]. cbn [fst List.length].
    unfold ShowMessage_loop.
    destruct (a =? -1) eqn:Ea; bool_to_Z.
    - cbn [negb andb]. reflexivity.
    - destruct (b =? -1) eqn:Eb; [bool_to_Z; lia|]. cbn [negb andb].
      unfold bind at 1. change (0 + a) with a.
      destruct (SetPosition a 0 s) as [[[e|]| |] s']; reflexivity. }
  split; [exact E|]. rewrite E.
  destruct (fst (getLineRange options) =? -1); [discriminate|].
  destruct (SetPosition (fst (getLineRange options)) 0 s) as [[[e|]| |] s'];
    discriminate.
Qed.

Lemma ShowMessage_empty_text_witness :
  ShowMessage "" SHOW_LINE_1 (mkState (fresh LCD_16x2) quiet_bus) =
    (Panicked (IndexOutOfRange 0 0),
     mkState (fresh LCD_16x2)
       (advance quiet_bus 6 (byte_transfer (fresh LCD_16x2) 0x80 0))) /\
  ShowMessage "" SHOW_NO_OPTIONS (mkState (fresh LCD_UNKNOWN) quiet_bus) =
    (Panicked (IndexOutOfRange 0 0), mkState (fresh LCD_UNKNOWN) quiet_bus).
Proof.
  split.
  - exact (proj1 (ShowMessage_empty_text
                    (mkState (fresh LCD_16x2) quiet_bus) SHOW_LINE_1
                    eq_refl eq_refl)).
  - exact (proj1 (ShowMessage_empty_text
                    (mkState (fresh LCD_UNKNOWN) quiet_bus) SHOW_NO_OPTIONS
                    eq_refl eq_refl)).
Defined.

(** ** Strings *)

Lemma length_take n s : String.length (take n s) = Nat.min n (String.length s).
Proof.
  revert s. induction n as [|n IH]; intros [|c s]; simpl; auto.
Qed.

Lemma length_drop n s : String.length (drop n s) = (String.length s - n)%nat.
Proof.
  revert s. induction n as [|n IH]; intros [|c s]; simpl; auto.
Qed.

Lemma take_all n s : (String.length s <= n)%nat -> take n s = s.
Proof.
  revert s. induction n as [|n IH]; intros [|c s]; simpl; intros H;
    try reflexivity; try lia.
  f_equal. apply IH. lia.
Qed.

Lemma drop_all n s : (String.length s <= n)%nat -> drop n s = "".
Proof.
  revert s. induction n as [|n IH]; intros [|c s]; simpl; intros H;
    try reflexivity; try lia.
  apply IH. lia.
Qed.

Lemma drop_drop n m s : drop n (drop m s) = drop (m + n) s.
Proof.
  revert s. induction m as [|m IH]; intros s; simpl; [reflexivity|].
  destruct s as [|c s]; [now destruct n|]. apply IH.
Qed.

Lemma take_take n m s : take n (take m s) = take (Nat.min n m) s.
Proof.
  revert m s. induction n as [|n IH]; intros [|m] [|c s]; simpl; auto.
  now rewrite IH.
Qed.

Lemma substring_take_drop n m s : substring n m s = take m (drop n s).
Proof.
  revert m s. induction n as [|n IH]; intros m s.
  - simpl drop. revert s. induction m as [|m IHm]; intros [|c s]; simpl; auto.
    now rewrite IHm.
  - destruct s as [|c s]; simpl; [now destruct m|]. apply IH.
Qed.

Lemma append_empty_r s : (s ++ "")%string = s.
Proof. induction s as [|c s IH]; simpl; [reflexivity|now rewrite IH]. Qed.

Lemma length_append s t :
  String.length (s ++ t) = (String.length s + String.length t)%nat.
Proof. induction s as [|c s IH]; simpl; [reflexivity|now rewrite IH]. Qed.

Lemma length_blanks n : String.length (blanks n) = n.
Proof. unfold blanks. induction n as [|n IH]; simpl; [reflexivity|now rewrite IH]. Qed.

Lemma length_segment w text i :
  String.length (segment w text i) = Nat.min w (String.length text - i * w).
Proof.
  unfold segment. now rewrite substring_take_drop, length_take, length_drop.
Qed.

Lemma len_pos_iff s : (len s >? 0) = negb (len s =? 0).
Proof.
  unfold len. destruct (Z.of_nat (String.length s) =? 0) eqn:E; bool_to_Z.
  - rewrite E. reflexivity.
  - simpl. apply Z.gtb_gt. lia.
Qed.

(** ** Lists *)

Lemma llen_app {A} (l : list A) x : llen (l ++ [x]) - 1 = llen l.
Proof. unfold llen. rewrite length_app. simpl. lia. Qed.

Lemma index_last {A} (l : list A) x : index (l ++ [x]) (llen l) = Ret x.
Proof.
  unfold index, llen. rewrite length_app. simpl List.length.
  destruct (0 <=? Z.of_nat (List.length l)) eqn:E1; [|bool_to_Z; lia].
  destruct (Z.of_nat (List.length l) <? Z.of_nat (List.length l + 1)) eqn:E2;
    [|bool_to_Z; lia].
  cbn [andb]. rewrite Nat2Z.id.
  rewrite nth_error_app2 by lia. now rewrite Nat.sub_diag.
Qed.

Lemma list_set_last {A} (l : list A) x v :
  list_set (l ++ [x]) (List.length l) v = l ++ [v].
Proof. induction l as [|a l IH]; simpl; [reflexivity|now rewrite IH]. Qed.

Lemma store_last {A} (l : list A) x v :
  store (l ++ [x]) (llen l) v = Ret (l ++ [v]).
Proof.
  unfold store, llen. rewrite length_app. simpl List.length.
  destruct (0 <=? Z.of_nat (List.length l)) eqn:E1; [|bool_to_Z; lia].
  destruct (Z.of_nat (List.length l) <? Z.of_nat (List.length l + 1)) eqn:E2;
    [|bool_to_Z; lia].
  cbn [andb]. rewrite Nat2Z.id. now rewrite list_set_last.
Qed.

(** ** The loops of [splitText] *)

Lemma segments_needed_zero w : (0 < w)%nat -> segments_needed w 0 = 0%nat.
Proof.
  intros H. unfold segments_needed. apply Nat.div_small. lia.
Qed.

Lemma segments_needed_step w n :
  (0 < w)%nat -> (0 < n)%nat ->
  segments_needed w n = S (segments_needed w (n - w)).
Proof.
  intros Hw Hn. unfold segments_needed.
  destruct (Nat.le_gt_cases n w) as [Hle | Hgt].
  - replace (n - w)%nat with 0%nat by lia.
    rewrite (Nat.div_small (0 + w - 1) w) by lia.
    symmetry. apply Nat.div_unique with (r := (n - 1)%nat); lia.
  - replace (n + w - 1)%nat with ((n - w + w - 1) + 1 * w)%nat by lia.
    rewrite Nat.div_add by lia. lia.
Qed.

Lemma segments_needed_bounds w n :
  (0 < w)%nat ->
  (n <= segments_needed w n * w /\ segments_needed w n * w < n + w)%nat.
Proof.
  intros Hw. unfold segments_needed.
  pose proof (Nat.div_mod_eq (n + w - 1) w) as E.
  pose proof (Nat.mod_upper_bound (n + w - 1) w ltac:(lia)) as B.
  nia.
Qed.

Section Layout.

Variable w : Z.
Hypothesis w_pos : 0 < w.

Let wn := Z.to_nat w.

Lemma segment_zero text : segment wn text 0 = take wn text.
Proof. unfold segment. now rewrite substring_take_drop. Qed.

Lemma segment_succ text i :
  segment wn text (S i) = segment wn (drop wn text) i.
Proof.
  unfold segment. rewrite !substring_take_drop, drop_drop.
  replace (S i * wn)%nat with (wn + i * wn)%nat by lia. reflexivity.
Qed.

Lemma loop_slices text :
  len text <> 0 ->
  let j := if w >? len text then len text else w in
  slice_to text j = Ret (take wn text) /\
  slice_from text j = Ret (drop wn text).
Proof.
  intros Hn. cbv zeta. unfold slice_to, slice_from, len in *.
  destruct (w >? Z.of_nat (String.length text)) eqn:E; bool_to_Z.
  - destruct (0 <=? Z.of_nat (String.length text)) eqn:E1; [|bool_to_Z; lia].
    rewrite Z.leb_refl. cbn [andb]. rewrite Nat2Z.id.
    rewrite !take_all, !drop_all by (subst wn; lia). auto.
  - destruct (0 <=? w) eqn:E1; [|bool_to_Z; lia].
    destruct (w <=? Z.of_nat (String.length text)) eqn:E2; [|bool_to_Z; lia].
    auto.
Qed.

Lemma split_loop_spec count : forall acc text,
  split_loop w count acc text =
  Ret (acc ++ map (segment wn text)
                  (seq 0 (Nat.min count (segments_needed wn (String.length text)))),
       drop (count * wn) text).
Proof.
  assert (Hwn : (0 < wn)%nat) by (subst wn; lia).
  induction count as [|count IH]; intros acc text.
  - simpl. now rewrite app_nil_r.
  - cbn [split_loop].
    destruct (len text =? 0) eqn:E; bool_to_Z.
    + assert (L : String.length text = 0%nat) by (unfold len in E; lia).
      rewrite L, segments_needed_zero by assumption.
      rewrite Nat.min_0_r. simpl seq. simpl map. rewrite app_nil_r.
      rewrite drop_all by lia.
      destruct text; [reflexivity|discriminate].
    + destruct (loop_slices text E) as [S1 S2]. rewrite S1, S2.
      cbn [obind]. rewrite IH.
      assert (L : (0 < String.length text)%nat) by (unfold len in E; lia).
      rewrite (segments_needed_step wn (String.length text)) by assumption.
      rewrite length_drop, drop_drop.
      rewrite <- Nat.succ_min_distr. cbn [seq map].
      rewrite <- seq_shift, map_map, segment_zero.
      rewrite <- List.app_assoc. cbn [app].
      rewrite (map_ext _ _ (fun i => segment_succ text i)).
      replace (S count * wn)%nat with (wn + count * wn)%nat by lia.
      reflexivity.
Qed.

Lemma pad_loop_spec count : forall lines,
  pad_loop w count lines = Ret (lines ++ repeat (blanks wn) count).
Proof.
  induction count as [|count IH]; intros lines.
  - simpl. now rewrite app_nil_r.
  - cbn [pad_loop]. unfold Repeat.
    destruct (w <? 0) eqn:E; [bool_to_Z; lia|].
    cbn [obind]. rewrite IH. rewrite <- List.app_assoc. reflexivity.
Qed.

(** What [splitTextW] is after the chunking loop, for an active range. *)
Lemma splitTextW_after_loop text options :
  range_active options = true ->
  let n := range_lines options in
  let lines := map (segment wn text)
                   (seq 0 (Nat.min n (segments_needed wn (String.length text)))) in
  (1 <= n)%nat /\
  splitTextW w text options =
  if (n * wn <? String.length text)%nat then
    if flag options SHOW_ELIPSE_IF_NOT_FIT then
      let j := llen lines - 1 in
      lj <~ index lines j ;;
      pre <~ slice_to lj (len lj - 1) ;;
      store lines j (pre ++ "~")%string
    else Ret lines
  else
    if flag options SHOW_BLANK_PADDING then
      let j := llen lines - 1 in
      lj <~ index lines j ;;
      sp <~ Repeat " " (w - len lj) ;;
      lines' <~ store lines j (lj ++ sp)%string ;;
      pad_loop w (Z.to_nat (Z.of_nat n - 1 - j)) lines'
    else Ret lines.
Proof.
  unfold range_active, range_lines, splitTextW.
  pose proof (getLineRange_cases options) as H.
  destruct (getLineRange options) as [a b]. cbn [fst].
  intros Ha. cbv zeta.
  destruct (a =? -1) eqn:Ea; [discriminate|]. bool_to_Z.
  destruct H as [[H _] | [H1 H2]]; [contradiction|].
  split; [lia|].
  destruct (w =? -1) eqn:Ew; [bool_to_Z; lia|].
  destruct (b =? -1) eqn:Eb; [bool_to_Z; lia|].
  cbn [negb andb].
  rewrite split_loop_spec. cbn [obind app].
  fold wn.
  set (n := Z.to_nat (b - a + 1)).
  assert (R : (len (drop (n * wn) text) >? 0) = (n * wn <? String.length text)%nat).
  { unfold len. rewrite length_drop.
    destruct (n * wn <? String.length text)%nat eqn:E.
    - apply Nat.ltb_lt in E. apply Z.gtb_gt. lia.
    - apply Nat.ltb_ge in E. rewrite Z.gtb_ltb. apply Z.ltb_ge. lia. }
  rewrite R.
  destruct (n * wn <? String.length text)%nat; [reflexivity|].
  destruct (flag options SHOW_BLANK_PADDING); [|reflexivity].
  set (lines := map (segment wn text) _).
  destruct (index lines (llen lines - 1)) as [lj| |]; cbn [obind]; try reflexivity.
  destruct (Repeat " " (w - len lj)) as [sp| |]; cbn [obind]; try reflexivity.
  destruct (store lines (llen lines - 1) (lj ++ sp)%string) as [lines'| |];
    cbn [obind]; try reflexivity.
  f_equal. unfold n. lia.
Qed.

Lemma segments_when_text_remains n text :
  (n * wn < String.length text)%nat ->
  Nat.min n (segments_needed wn (String.length text)) = n.
Proof.
  intros H.
  pose proof (segments_needed_bounds wn (String.length text)) as B.
  assert (Hwn : (0 < wn)%nat) by (subst wn; lia).
  specialize (B Hwn). apply Nat.min_l. nia.
Qed.

Lemma segments_when_text_fits n text :
  (String.length text <= n * wn)%nat ->
  Nat.min n (segments_needed wn (String.length text)) =
    segments_needed wn (String.length text) /\
  (segments_needed wn (String.length text) <= n)%nat.
Proof.
  intros H.
  pose proof (segments_needed_bounds wn (String.length text)) as B.
  assert (Hwn : (0 < wn)%nat) by (subst wn; lia).
  specialize (B Hwn).
  assert (segments_needed wn (String.length text) <= n)%nat by nia.
  split; [now apply Nat.min_r|assumption].
Qed.

Lemma map_seq_last {A} (f : nat -> A) m :
  map f (seq 0 (S m)) = map f (seq 0 m) ++ [f m].
Proof. now rewrite seq_S, map_app. Qed.

Lemma llen_map_seq {A} (f : nat -> A) m : llen (map f (seq 0 m)) = Z.of_nat m.
Proof. unfold llen. now rewrite length_map, length_seq. Qed.

Lemma layout_dropped text options :
  range_active options = true ->
  (range_lines options * wn < String.length text)%nat ->
  flag options SHOW_ELIPSE_IF_NOT_FIT = false ->
  splitTextW w text options =
  Ret (map (segment wn text) (seq 0 (range_lines options))).
Proof.
  intros Ha Hr He.
  destruct (splitTextW_after_loop text options Ha) as [_ E]. rewrite E.
  apply Nat.ltb_lt in Hr. rewrite Hr, He.
  apply Nat.ltb_lt in Hr. now rewrite segments_when_text_remains.
Qed.

Lemma layout_ellipsis text options :
  range_active options = true ->
  (range_lines options * wn < String.length text)%nat ->
  flag options SHOW_ELIPSE_IF_NOT_FIT = true ->
  splitTextW w text options =
  Ret (map (segment wn text) (seq 0 (range_lines options - 1)) ++
       [(substring ((range_lines options - 1) * wn) (wn - 1) text ++ "~")%string]).
Proof.
  intros Ha Hr He.
  destruct (splitTextW_after_loop text options Ha) as [Hn E]. rewrite E.
  apply Nat.ltb_lt in Hr. rewrite Hr, He. cbv zeta.
  apply Nat.ltb_lt in Hr. rewrite segments_when_text_remains by assumption.
  destruct (range_lines options) as [|m]; [lia|].
  replace (S m - 1)%nat with m by lia.
  rewrite map_seq_last, llen_app.
  rewrite index_last. cbn [obind].
  assert (L : String.length (segment wn text m) = wn).
  { rewrite length_segment. lia. }
  unfold slice_to, len. rewrite L.
  assert (Hwn : (0 < wn)%nat) by (subst wn; lia).
  destruct (0 <=? Z.of_nat wn - 1) eqn:E1; [|bool_to_Z; lia].
  destruct (Z.of_nat wn - 1 <=? Z.of_nat wn) eqn:E2; [|bool_to_Z; lia].
  cbn [andb obind].
  rewrite store_last. f_equal. f_equal. f_equal. f_equal.
  replace (Z.to_nat (Z.of_nat wn - 1)) with (wn - 1)%nat by lia.
  unfold segment. rewrite !substring_take_drop, take_take.
  f_equal. lia.
Qed.

Lemma layout_fits text options :
  range_active options = true ->
  (String.length text <= range_lines options * wn)%nat ->
  flag options SHOW_BLANK_PADDING = false ->
  splitTextW w text options =
  Ret (map (segment wn text) (seq 0 (segments_needed wn (String.length text)))).
Proof.
  intros Ha Hr Hp.
  destruct (splitTextW_after_loop text options Ha) as [_ E]. rewrite E.
  apply Nat.ltb_ge in Hr. rewrite Hr, Hp.
  apply Nat.ltb_ge in Hr.
  now rewrite (proj1 (segments_when_text_fits _ _ Hr)).
Qed.

Lemma layout_padded text options :
  range_active options = true ->
  (0 < String.length text <= range_lines options * wn)%nat ->
  flag options SHOW_BLANK_PADDING = true ->
  let k := segments_needed wn (String.length text) in
  let last := segment wn text (k - 1) in
  splitTextW w text options =
  Ret (map (segment wn text) (seq 0 (k - 1)) ++
       [(last ++ blanks (wn - String.length last))%string] ++
       repeat (blanks wn) (range_lines options - k)).
Proof.
  intros Ha [Hpos Hr] Hp. cbv zeta.
  destruct (splitTextW_after_loop text options Ha) as [Hn E]. rewrite E.
  apply Nat.ltb_ge in Hr. rewrite Hr, Hp. cbv zeta.
  apply Nat.ltb_ge in Hr.
  destruct (segments_when_text_fits _ _ Hr) as [M Hk]. rewrite M.
  assert (Hwn : (0 < wn)%nat) by (subst wn; lia).
  pose proof (segments_needed_bounds wn (String.length text) Hwn) as B.
  destruct (segments_needed wn (String.length text)) as [|m]; [lia|].
  replace (S m - 1)%nat with m by lia.
  rewrite map_seq_last, llen_app.
  rewrite index_last. cbn [obind].
  assert (L : (String.length (segment wn text m) <= wn)%nat).
  { rewrite length_segment. lia. }
  unfold Repeat, len.
  destruct (w - Z.of_nat (String.length (segment wn text m)) <? 0) eqn:E1;
    [bool_to_Z; subst wn; lia|].
  cbn [obind].
  rewrite store_last. cbn [obind].
  rewrite pad_loop_spec. rewrite <- List.app_assoc. fold wn.
  rewrite llen_map_seq.
  f_equal. f_equal. f_equal.
  - f_equal. f_equal. unfold blanks. f_equal. subst wn. lia.
  - f_equal. lia.
Qed.

End Layout.

Lemma splitText_supported l text options :
  supported l ->
  0 < fst (getSize l) /\
  splitText l text options = splitTextW (fst (getSize l)) text options.
Proof.
  intros H. split; [|reflexivity].
  destruct (supported_getSize l H) as [E | E]; rewrite E; simpl; lia.
Qed.

(** C6: for a width [w] (16 or 20 on the supported geometries) and an
    active range of [n = endLine - startLine + 1] lines, the layout cuts the
    text into consecutive segments of [w] characters, the last possibly
    shorter, and never returns more than [n] segments.  When text remains
    after [n] segments, the result is the first [n] segments, the last
    character of the last one replaced with [~] under the ellipsis option,
    and the remainder dropped without it. *)
Theorem layout_chunks (w : Z) (text : string) (options : Z) :
  0 < w -> range_active options = true ->
  let wn := Z.to_nat w in
  let n := range_lines options in
  let k := segments_needed wn (String.length text) in
  ((n * wn < String.length text)%nat ->
   (flag options SHOW_ELIPSE_IF_NOT_FIT = false ->
    splitTextW w text options = Ret (map (segment wn text) (seq 0 n))) /\
   (flag options SHOW_ELIPSE_IF_NOT_FIT = true ->
    splitTextW w text options =
    Ret (map (segment wn text) (seq 0 (n - 1)) ++
         [(substring ((n - 1) * wn) (wn - 1) text ++ "~")%string]))) /\
  ((String.length text <= n * wn)%nat ->
   flag options SHOW_BLANK_PADDING = false ->
   splitTextW w text options = Ret (map (segment wn text) (seq 0 k)) /\
   (k <= n)%nat) /\
  (forall lines,
      splitTextW w text options = Ret lines -> (List.length lines <= n)%nat) /\
  (forall i,
      String.length (segment wn text i) =
      Nat.min wn (String.length text - i * wn)) /\
  (forall l,
      supported l ->
      0 < fst (getSize l) /\
      splitText l text options = splitTextW (fst (getSize l)) text options).
Proof.
  intros Hw Ha. cbv zeta.
  destruct (splitTextW_after_loop w Hw text options Ha) as [Hn _].
  split; [|split; [|split; [|split]]].
  - intros Hr. split; intros He.
    + now apply layout_dropped.
    + now apply layout_ellipsis.
  - intros Hr Hp. split.
    + now apply layout_fits.
    + apply (segments_when_text_fits w Hw _ _ Hr).
  - intros lines E.
    destruct (Nat.lt_ge_cases (range_lines options * Z.to_nat w) (String.length text))
      as [Hr | Hr].
    + destruct (flag options SHOW_ELIPSE_IF_NOT_FIT) eqn:He.
      * rewrite (layout_ellipsis w Hw text options Ha Hr He) in E.
        inversion E. rewrite length_app, length_map, length_seq. simpl. lia.
      * rewrite (layout_dropped w Hw text options Ha Hr He) in E.
        inversion E. rewrite length_map, length_seq. lia.
    + destruct (segments_when_text_fits w Hw _ _ Hr) as [_ Hk].
      destruct (flag options SHOW_BLANK_PADDING) eqn:Hp.
      * destruct text as [|c text].
        { rewrite splitTextW_empty in E. rewrite Ha, Hp in E.
          destruct (w =? -1) eqn:Ew; [bool_to_Z; lia|]. discriminate E. }
        assert (Hpos : (0 < String.length (String c text)
                        <= range_lines options * Z.to_nat w)%nat)
          by (simpl in *; lia).
        rewrite (layout_padded w Hw _ options Ha Hpos Hp) in E.
        inversion E.
        cbn [app]. rewrite length_app, length_map, length_seq.
        cbn [List.length]. rewrite repeat_length.
        pose proof (segments_needed_bounds (Z.to_nat w)
                      (String.length (String c text)) ltac:(lia)) as B.
        assert (1 <= segments_needed (Z.to_nat w) (String.length (String c text)))%nat
          by (simpl in *; nia).
        cbn [String.length] in *. lia.
      * rewrite (layout_fits w Hw text options Ha Hr Hp) in E.
        inversion E. rewrite length_map, length_seq. exact Hk.
  - intros i. apply length_segment.
  - intros l Hl. now apply splitText_supported.
Qed.

Lemma layout_chunks_witness :
  splitTextW 4 "ABCDEFGHIJ" (Z.lor SHOW_LINE_1 SHOW_LINE_2) =
    Ret ["ABCD"; "EFGH"] /\
  splitTextW 4 "ABCDEFGHIJ"
    (Z.lor (Z.lor SHOW_LINE_1 SHOW_LINE_2) SHOW_ELIPSE_IF_NOT_FIT) =
    Ret ["ABCD"; "EFG~"] /\
  splitText (fresh LCD_16x2) "ABCDEFGHIJ" SHOW_LINE_1 = Ret ["ABCDEFGHIJ"].
Proof.
  split; [|split].
  - refine (proj1 (proj1 (layout_chunks 4 "ABCDEFGHIJ"
                            (Z.lor SHOW_LINE_1 SHOW_LINE_2) _ eq_refl) _) eq_refl).
    + lia.
    + simpl. lia.
  - refine (proj2 (proj1 (layout_chunks 4 "ABCDEFGHIJ"
                            (Z.lor (Z.lor SHOW_LINE_1 SHOW_LINE_2)
                                   SHOW_ELIPSE_IF_NOT_FIT) _ eq_refl) _) eq_refl).
    + lia.
    + simpl. lia.
  - pose proof (layout_chunks 16 "ABCDEFGHIJ" SHOW_LINE_1 ltac:(lia) eq_refl) as H.
    cbv zeta in H. destruct H as (_ & H & _ & _ & S).
    destruct (S (fresh LCD_16x2) (or_introl eq_refl)) as [_ S'].
    rewrite S'. refine (proj1 (H _ eq_refl)). simpl. lia.
Defined.

(** C7: for a width [w] (16 or 20 on the supported geometries) and an
    active range of [n] lines, a non-empty text that fits into the [n]
    segments is laid out, under the blank-padding option, as its segments
    with the last one filled with spaces to [w] characters, followed by a
    line of [w] spaces for every unused line; and a text of exactly
    [w * n] characters comes back as its [n] full segments, whatever the
    flags. *)
Theorem layout_padding (w : Z) (text : string) (options : Z) :
  0 < w -> range_active options = true ->
  let wn := Z.to_nat w in
  let n := range_lines options in
  let k := segments_needed wn (String.length text) in
  let last := segment wn text (k - 1) in
  ((0 < String.length text <= n * wn)%nat ->
   flag options SHOW_BLANK_PADDING = true ->
   splitTextW w text options =
     Ret (map (segment wn text) (seq 0 (k - 1)) ++
          [(last ++ blanks (wn - String.length last))%string] ++
          repeat (blanks wn) (n - k)) /\
   String.length (last ++ blanks (wn - String.length last)) = wn /\
   String.length (blanks wn) = wn /\
   (1 <= k <= n)%nat) /\
  (String.length text = (n * wn)%nat ->
   splitTextW w text options = Ret (map (segment wn text) (seq 0 n)) /\
   (forall i, (i < n)%nat -> String.length (segment wn text i) = wn)) /\
  (forall l,
      supported l ->
      0 < fst (getSize l) /\
      splitText l text options = splitTextW (fst (getSize l)) text options).
Proof.
  intros Hw Ha. cbv zeta.
  destruct (splitTextW_after_loop w Hw text options Ha) as [Hn _].
  assert (Hwn : (0 < Z.to_nat w)%nat) by lia.
  pose proof (segments_needed_bounds (Z.to_nat w) (String.length text) Hwn) as B.
  split; [|split].
  - intros Hr Hp. split; [now apply layout_padded|].
    destruct (segments_when_text_fits w Hw _ _ (proj2 Hr)) as [_ Hk].
    assert (K1 : (1 <= segments_needed (Z.to_nat w) (String.length text))%nat) by nia.
    split; [|split; [apply length_blanks|lia]].
    rewrite length_append, length_blanks, length_segment. lia.
  - intros Hl.
    assert (Hr : (String.length text <= range_lines options * Z.to_nat w)%nat) by lia.
    destruct (segments_when_text_fits w Hw _ _ Hr) as [_ Hk].
    assert (K : segments_needed (Z.to_nat w) (String.length text) = range_lines options)
      by nia.
    split.
    + destruct (flag options SHOW_BLANK_PADDING) eqn:Hp.
      * assert (Hpos : (0 < String.length text
                        <= range_lines options * Z.to_nat w)%nat) by nia.
        rewrite (layout_padded w Hw text options Ha Hpos Hp). rewrite K.
        destruct (range_lines options) as [|m]; [lia|].
        replace (S m - 1)%nat with m by lia.
        rewrite Nat.sub_diag. cbn [repeat]. rewrite app_nil_r.
        assert (L : String.length (segment (Z.to_nat w) text m) = Z.to_nat w).
        { rewrite length_segment. lia. }
        rewrite L, Nat.sub_diag. change (blanks 0) with "".
        rewrite append_empty_r. now rewrite map_seq_last.
      * rewrite (layout_fits w Hw text options Ha Hr Hp). now rewrite K.
    + intros i Hi. rewrite length_segment. nia.
  - intros l Hs. now apply splitText_supported.
Qed.

Lemma layout_padding_witness :
  splitTextW 4 "AB"
    (Z.lor (Z.lor (Z.lor SHOW_LINE_1 SHOW_LINE_2) SHOW_LINE_3) SHOW_BLANK_PADDING) =
    Ret ["AB  "; "    "; "    "] /\
  splitTextW 4 "ABCDEFGH"
    (Z.lor (Z.lor (Z.lor SHOW_LINE_1 SHOW_LINE_2) SHOW_ELIPSE_IF_NOT_FIT)
           SHOW_BLANK_PADDING) =
    Ret ["ABCD"; "EFGH"].
Proof.
  split.
  - refine (proj1 (proj1 (layout_padding 4 "AB"
      (Z.lor (Z.lor (Z.lor SHOW_LINE_1 SHOW_LINE_2) SHOW_LINE_3) SHOW_BLANK_PADDING)
      _ eq_refl) _ eq_refl)).
    + lia.
    + simpl. lia.
  - refine (proj1 (proj1 (proj2 (layout_padding 4 "ABCDEFGH"
      (Z.lor (Z.lor (Z.lor SHOW_LINE_1 SHOW_LINE_2) SHOW_ELIPSE_IF_NOT_FIT)
             SHOW_BLANK_PADDING)
      _ eq_refl)) _)).
    + lia.
    + reflexivity.
Defined.

(** ** The iteration budget of [ShowMessage] is never exhausted *)

Lemma terminates_ret {A} (a : A) : terminates (ret a).
Proof. intros s. discriminate. Qed.

Lemma terminates_bind {A B} (m : M A) (k : A -> M B) :
  terminates m -> (forall a, terminates (k a)) -> terminates (bind m k).
Proof.
  intros Hm Hk s. unfold bind. specialize (Hm s).
  destruct (m s) as [[a|p|] s']; cbn [fst] in *.
  - apply Hk.
  - discriminate.
  - contradiction.
Qed.

Lemma terminates_check (m : M (option error)) (k : M (option error)) :
  terminates m -> terminates k ->
  terminates (check m ;; k).
Proof.
  intros Hm Hk. apply terminates_bind; [exact Hm|].
  intros [e|]; [apply terminates_ret|exact Hk].
Qed.

Lemma terminates_lift {A} (o : outcome A) :
  o <> OutOfFuel -> terminates (lift o).
Proof. intros H s. exact H. Qed.

Lemma terminates_writeByte data controlPins : terminates (writeByte data controlPins).
Proof.
  intros s. destruct (writeByte_total data controlPins s) as (e & w' & E & _).
  rewrite E. discriminate.
Qed.

Lemma index_returns_or_panics {A} (l : list A) i : index l i <> OutOfFuel.
Proof.
  unfold index. destruct ((0 <=? i) && (i <? llen l)); [|discriminate].
  destruct (nth_error l (Z.to_nat i)); discriminate.
Qed.

Lemma terminates_SetPosition line pos : terminates (SetPosition line pos).
Proof.
  unfold SetPosition. apply terminates_bind; [intros s; discriminate|].
  intros l. destruct (negb (active l)); [apply terminates_ret|].
  destruct (getSize l) as [w h].
  destruct (negb (w =? -1) && ((pos <? 0) || (pos >? w - 1)));
    [apply terminates_ret|].
  destruct (negb (h =? -1) && ((line <? 0) || (line >? h - 1)));
    [apply terminates_ret|].
  apply terminates_bind.
  - apply terminates_lift, index_returns_or_panics.
  - intros off. apply terminates_writeByte.
Qed.

Lemma terminates_write_runes cs : terminates (write_runes cs).
Proof.
  induction cs as [|c cs IH]; cbn [write_runes].
  - apply terminates_ret.
  - apply terminates_check; [apply terminates_writeByte|exact IH].
Qed.

Lemma terminates_ShowMessage_loop lines startLine endLine fuel : forall i,
  0 <= i -> (1 <= fuel)%nat -> (List.length lines <= fuel + Z.to_nat i)%nat ->
  terminates (ShowMessage_loop fuel lines startLine endLine i).
Proof.
  induction fuel as [|fuel IH]; intros i Hi H1 Hf; [lia|].
  cbn [ShowMessage_loop]. apply terminates_check.
  - destruct (negb (startLine =? -1) && negb (endLine =? -1));
      [apply terminates_SetPosition|apply terminates_ret].
  - destruct (Z_lt_le_dec i (llen lines)) as [Lt | Ge].
    + apply terminates_bind.
      * apply terminates_lift, index_returns_or_panics.
      * intros line. apply terminates_check; [apply terminates_write_runes|].
        destruct (i =? llen lines - 1) eqn:E; [apply terminates_ret|].
        bool_to_Z. unfold llen in *. apply IH; lia.
    + intros s. unfold bind, lift, index.
      destruct (i <? llen lines) eqn:E; [bool_to_Z; lia|].
      rewrite andb_false_r. discriminate.
Qed.

Lemma obind_returns_or_panics {A B} (o : outcome A) (k : A -> outcome B) :
  o <> OutOfFuel -> (forall a, k a <> OutOfFuel) -> obind o k <> OutOfFuel.
Proof. intros Ho Hk. destruct o; cbn [obind]; auto. discriminate. Qed.

Lemma slice_to_returns_or_panics s j : slice_to s j <> OutOfFuel.
Proof. unfold slice_to. destruct ((0 <=? j) && (j <=? len s)); discriminate. Qed.

Lemma slice_from_returns_or_panics s j : slice_from s j <> OutOfFuel.
Proof. unfold slice_from. destruct ((0 <=? j) && (j <=? len s)); discriminate. Qed.

Lemma Repeat_returns_or_panics s n : Repeat s n <> OutOfFuel.
Proof. unfold Repeat. destruct (n <? 0); discriminate. Qed.

Lemma store_returns_or_panics {A} (l : list A) i v : store l i v <> OutOfFuel.
Proof. unfold store. destruct ((0 <=? i) && (i <? llen l)); discriminate. Qed.

Lemma split_loop_returns_or_panics w count : forall lines text,
  split_loop w count lines text <> OutOfFuel.
Proof.
  induction count as [|count IH]; intros lines text; cbn [split_loop];
    [discriminate|].
  destruct (len text =? 0); [discriminate|].
  apply obind_returns_or_panics; [apply slice_to_returns_or_panics|].
  intros seg. apply obind_returns_or_panics; [apply slice_from_returns_or_panics|].
  intros rest. apply IH.
Qed.

Lemma pad_loop_returns_or_panics w count : forall lines,
  pad_loop w count lines <> OutOfFuel.
Proof.
  induction count as [|count IH]; intros lines; cbn [pad_loop]; [discriminate|].
  apply obind_returns_or_panics; [apply Repeat_returns_or_panics|].
  intros blank. apply IH.
Qed.

Lemma splitTextW_returns_or_panics w text options :
  splitTextW w text options <> OutOfFuel.
Proof.
  unfold splitTextW. destruct (getLineRange options) as [a b].
  destruct (negb (w =? -1) && negb (a =? -1) && negb (b =? -1)).
  - apply obind_returns_or_panics; [apply split_loop_returns_or_panics|].
    intros [lines rest].
    destruct (len rest >? 0).
    + destruct (flag options SHOW_ELIPSE_IF_NOT_FIT); [|discriminate].
      apply obind_returns_or_panics; [apply index_returns_or_panics|].
      intros lj. apply obind_returns_or_panics; [apply slice_to_returns_or_panics|].
      intros pre. apply store_returns_or_panics.
    + destruct (flag options SHOW_BLANK_PADDING); [|discriminate].
      apply obind_returns_or_panics; [apply index_returns_or_panics|].
      intros lj. apply obind_returns_or_panics; [apply Repeat_returns_or_panics|].
      intros sp. apply obind_returns_or_panics; [apply store_returns_or_panics|].
      intros lines'. apply pad_loop_returns_or_panics.
  - destruct (len text >? 0); discriminate.
Qed.

(** [ShowMessage] returns or panics on every input: the budget given to
    its loop is enough. *)
Lemma terminates_ShowMessage text options : terminates (ShowMessage text options).
Proof.
  unfold ShowMessage. apply terminates_bind; [intros s; discriminate|].
  intros l. destruct (negb (active l)); [apply terminates_ret|].
  apply terminates_bind.
  - apply terminates_lift. apply splitTextW_returns_or_panics.
  - intros lines. destruct (getLineRange options) as [a b].
    apply terminates_ShowMessage_loop; lia.
Qed.

(** ** Runs of the bus: how operations stop at the first failed call *)

Lemma bus_ok_split w n1 n2 e1 :
  bus_ok w n1 -> bus_ok (advance w n1 e1) n2 -> bus_ok w (n1 + n2).
Proof.
  unfold bus_ok, advance. cbn [bus_fails calls]. intros B1 B2 k Hk.
  destruct (Nat.lt_ge_cases k (calls w + n1)) as [L | G].
  - apply B1. lia.
  - apply B2. lia.
Qed.

Lemma run_nil_then strict n1 n2 e1 e2 w w1 w2 r :
  run strict n1 e1 w w1 None -> run strict n2 e2 w1 w2 r ->
  run strict (n1 + n2) (e1 ++ e2) w w2 r.
Proof.
  unfold run. intros [-> B1] R2.
  destruct r as [[k| |]|]; cbn [advance bus_fails calls] in R2.
  - destruct R2 as (F2 & C2 & K & Fk & Bk).
    split; [exact F2|]. split; [exact C2|]. split; [lia|]. split; [exact Fk|].
    intros j Hj. destruct (Nat.lt_ge_cases j (calls w + n1)) as [L | G].
    + apply B1. lia.
    + apply Bk. lia.
  - destruct R2 as (S2 & F2 & C2 & Bk).
    split; [exact S2|]. split; [exact F2|]. split; [lia|].
    intros j Hj. destruct (Nat.lt_ge_cases j (calls w + n1)) as [L | G].
    + apply B1. lia.
    + apply Bk. lia.
  - destruct R2 as (S2 & F2 & C2 & Bk).
    split; [exact S2|]. split; [exact F2|]. split; [lia|].
    intros j Hj. destruct (Nat.lt_ge_cases j (calls w + n1)) as [L | G].
    + apply B1. lia.
    + apply Bk. lia.
  - destruct R2 as [-> B2]. split.
    + apply advance_advance.
    + eapply bus_ok_split; eassumption.
Qed.

Lemma run_error_then strict n1 n2 e1 e2 w w1 e :
  run strict n1 e1 w w1 (Some e) -> run strict (n1 + n2) e2 w w1 (Some e).
Proof.
  unfold run. destruct e as [k| |].
  - intros (F & C & K & Fk & Bk). repeat split; auto; lia.
  - intros (S1 & F & C & Bk). repeat split; auto; lia.
  - intros (S1 & F & C & Bk). repeat split; auto; lia.
Qed.

Lemma advance_zero w : advance w 0 [] = w.
Proof.
  destruct w as [f c t]. unfold advance. cbn [bus_fails calls trace].
  now rewrite Nat.add_0_r, app_nil_r.
Qed.

Lemma run_refl strict w : run strict 0 [] w w None.
Proof.
  unfold run, bus_ok. split; [now rewrite advance_zero|]. intros k Hk. lia.
Qed.

Lemma run_validation w e evs : ~ is_transport e -> run false 0 evs w w (Some e).
Proof.
  unfold run. intros He.
  destruct e as [k| |]; [now elim He| |];
    (split; [reflexivity|split; [reflexivity|split; [lia|intros j Hj; lia]]]).
Qed.

Lemma run_weaken n evs w w' r : run true n evs w w' r -> run false n evs w w' r.
Proof.
  unfold run. destruct r as [[k| |]|]; auto; intros [D _]; discriminate D.
Qed.

Lemma steps_check strict l l1 l2 n1 n2 e1 e2 m k :
  steps strict l n1 e1 m l1 -> steps strict l1 n2 e2 k l2 ->
  steps strict l (n1 + n2) (e1 ++ e2) (check m ;; k) l2.
Proof.
  intros Hm Hk w. destruct (Hm w) as (r & w1 & lx & E & R & L).
  unfold bind. rewrite E. destruct r as [e|].
  - exists (Some e), w1, lx. split; [reflexivity|].
    split; [eapply run_error_then; eassumption|discriminate].
  - rewrite (L eq_refl).
    destruct (Hk w1) as (r2 & w2 & ly & E2 & R2 & L2).
    exists r2, w2, ly. split; [exact E2|].
    split; [eapply run_nil_then; eassumption|exact L2].
Qed.

Lemma steady_steps strict l n evs m :
  steady strict l n evs m -> steps strict l n evs m l.
Proof.
  intros H w. destruct (H w) as (r & w' & E & R).
  exists r, w', l. auto.
Qed.

Lemma steady_weaken l n evs m : steady true l n evs m -> steady false l n evs m.
Proof.
  intros H w. destruct (H w) as (r & w' & E & R).
  exists r, w'. split; [exact E|now apply run_weaken].
Qed.

Lemma steady_check strict l n1 n2 e1 e2 m k :
  steady strict l n1 e1 m -> steady strict l n2 e2 k ->
  steady strict l (n1 + n2) (e1 ++ e2) (check m ;; k).
Proof.
  intros Hm Hk w. destruct (Hm w) as (r & w1 & E & R).
  unfold bind. rewrite E. destruct r as [e|].
  - exists (Some e), w1. split; [reflexivity|eapply run_error_then; eassumption].
  - destruct (Hk w1) as (r2 & w2 & E2 & R2).
    exists r2, w2. split; [exact E2|eapply run_nil_then; eassumption].
Qed.

Lemma steady_cast strict l n n' evs evs' m :
  n = n' -> evs = evs' -> steady strict l n evs m -> steady strict l n' evs' m.
Proof. now intros -> ->. Qed.

Lemma steps_cast strict l l' n n' evs evs' m :
  n = n' -> evs = evs' -> steps strict l n evs m l' -> steps strict l n' evs' m l'.
Proof. now intros -> ->. Qed.

Lemma steady_ret_nil strict l : steady strict l 0 [] (ret None).
Proof. intros w. exists None, w. split; [reflexivity|apply run_refl]. Qed.

Lemma steady_ret_validation l e :
  ~ is_transport e -> steady false l 0 [] (ret (Some e)).
Proof.
  intros He w. exists (Some e), w. split; [reflexivity|now apply run_validation].
Qed.

Lemma run_from_sleep strict n evs w w' r d :
  run strict n evs (mkWorld (bus_fails w) (calls w) (trace w ++ [Sleep d])) w' r ->
  run strict n (Sleep d :: evs) w w' r.
Proof.
  unfold run, bus_ok, advance. cbn [bus_fails calls trace].
  destruct r as [[k| |]|]; auto.
  intros [-> B]. split; [|exact B]. now rewrite <- List.app_assoc.
Qed.

Lemma steps_sleep strict l l' n evs d k :
  steps strict l n evs k l' -> steps strict l n (Sleep d :: evs) (sleep d ;;; k) l'.
Proof.
  intros Hk w. unfold bind, sleep. cbn [lcd world].
  destruct (Hk (mkWorld (bus_fails w) (calls w) (trace w ++ [Sleep d])))
    as (r & w' & lx & E & R & L).
  exists r, w', lx. split; [exact E|]. split; [|exact L].
  now apply run_from_sleep.
Qed.

Lemma steady_sleep strict l n evs d k :
  steady strict l n evs k -> steady strict l n (Sleep d :: evs) (sleep d ;;; k).
Proof.
  intros Hk w. unfold bind, sleep. cbn [lcd world].
  destruct (Hk (mkWorld (bus_fails w) (calls w) (trace w ++ [Sleep d])))
    as (r & w' & E & R).
  exists r, w'. split; [exact E|]. now apply run_from_sleep.
Qed.

Lemma steps_modify strict l l' n evs f k :
  steps strict (f l) n evs k l' -> steps strict l n evs (modify f ;;; k) l'.
Proof.
  intros Hk w. unfold bind, modify, get_lcd, set_lcd. cbn [lcd world].
  apply Hk.
Qed.

Lemma steady_get_lcd strict l n evs (k : Lcd -> M (option error)) :
  steady strict l n evs (k l) -> steady strict l n evs (x <- get_lcd ;; k x).
Proof. intros Hk w. unfold bind, get_lcd. cbn [lcd]. apply Hk. Qed.

(** [err := m; time.Sleep(d); return err] *)
Lemma steady_then_sleep strict l n evs d m :
  steady strict l n evs m ->
  steady strict l n (evs ++ [Sleep d]) (err <- m ;; sleep d ;;; ret err).
Proof.
  intros Hm w. destruct (Hm w) as (r & w' & E & R).
  unfold bind, sleep, ret. rewrite E. cbn [lcd world].
  exists r. eexists. split; [reflexivity|].
  unfold run in *. destruct r as [[k| |]|]; cbn [bus_fails calls]; auto.
  destruct R as [-> B]. split; [|exact B].
  unfold advance. cbn [bus_fails calls trace]. now rewrite <- List.app_assoc.
Qed.

Lemma steady_i2c_WriteBytes strict l b :
  steady strict l 1 [Wire b] (i2c_WriteBytes b).
Proof.
  intros w. unfold i2c_WriteBytes. cbn [lcd world].
  destruct (bus_fails w (calls w)) eqn:F.
  - do 2 eexists. split; [reflexivity|].
    unfold run. cbn [bus_fails calls]. split; [reflexivity|].
    split; [reflexivity|]. split; [lia|]. split; [exact F|].
    intros j Hj. lia.
  - do 2 eexists. split; [reflexivity|].
    unfold run, bus_ok, advance. split.
    + f_equal. lia.
    + intros k Hk. assert (k = calls w) by lia. now subst.
Qed.

Lemma steady_writeRawDataSeq strict l seq :
  steady strict l (List.length seq)
    (flat_map (fun item => [Wire (Data item); Sleep (Delay item)]) seq)
    (writeRawDataSeq seq).
Proof.
  induction seq as [|item rest IH]; cbn [writeRawDataSeq List.length flat_map].
  - apply steady_ret_nil.
  - change (S (List.length rest)) with (1 + List.length rest)%nat.
    apply (steady_check strict l 1 _ [Wire (Data item)]);
      [apply steady_i2c_WriteBytes|].
    now apply steady_sleep.
Qed.

Lemma steady_writeDataWithStrobe strict l d :
  steady strict l 3 (strobe_events l d) (writeDataWithStrobe d).
Proof.
  unfold writeDataWithStrobe. apply steady_get_lcd. cbv zeta.
  eapply steady_cast; [| |apply steady_writeRawDataSeq]; reflexivity.
Qed.

Lemma steady_writeByte strict l data controlPins :
  steady strict l 6 (byte_events l data controlPins) (writeByte data controlPins).
Proof.
  unfold writeByte, byte_events.
  eapply steady_cast;
    [| |apply steady_check;
         [apply steady_writeDataWithStrobe|
          apply steady_check; [apply steady_writeDataWithStrobe|apply steady_ret_nil]]].
  - reflexivity.
  - now rewrite app_nil_r.
Qed.

Lemma byte_events_transfer l data controlPins :
  is_byte data -> byte_events l data controlPins = byte_transfer l data controlPins.
Proof.
  intros H. unfold byte_events, strobe_events.
  rewrite high_nibble_eq, low_nibble_eq by assumption. reflexivity.
Qed.


Lemma run_nil_iff n evs w w' r :
  run true n evs w w' r -> (r = None <-> bus_ok w n).
Proof.
  unfold run. destruct r as [[k| |]|].
  - intros (F & C & K & Fk & Bk). split; [discriminate|].
    intros B. rewrite (B k K) in Fk. discriminate.
  - intros (S1 & _). discriminate S1.
  - intros (S1 & _). discriminate S1.
  - intros [_ B]. split; auto.
Qed.

Lemma run_strict_error n evs w w' e :
  run true n evs w w' (Some e) -> is_transport e.
Proof.
  unfold run. destruct e as [k| |]; cbn [is_transport]; auto;
    intros (S1 & _); discriminate S1.
Qed.

Lemma steady_on_good_bus l n evs m w :
  steady true l n evs m -> bus_ok w n ->
  m (mkState l w) = (Ret None, mkState l (advance w n evs)).
Proof.
  intros H B. destruct (H w) as (r & w' & E & R).
  pose proof (proj2 (run_nil_iff _ _ _ _ _ R) B) as ->.
  destruct R as [-> _]. exact E.
Qed.

Lemma steady_command_then_sleep l cmd d :
  steady true l 6 (byte_events l (cmd l) 0 ++ [Sleep d]) (command_then_sleep cmd d).
Proof.
  unfold command_then_sleep. apply steady_get_lcd.
  apply steady_then_sleep, steady_writeByte.
Qed.

(** X1: [writeByte] returns on every bus and leaves the session as it
    was; it makes the bus calls of its six raw transfers in order and stops
    at the first one that fails, returning that call's error; it returns
    nil exactly when the bus accepts all six. *)
Theorem writeByte_stops_at_first_failure (s : State) (data controlPins : Z) :
  exists r w',
    writeByte data controlPins s = (Ret r, mkState (lcd s) w') /\
    run true 6 (byte_events (lcd s) data controlPins) (world s) w' r /\
    (r = None <-> bus_ok (world s) 6) /\
    (forall e, r = Some e -> is_transport e).
Proof.
  destruct s as [l w]. cbn [lcd world].
  destruct (steady_writeByte true l data controlPins w) as (r & w' & E & R).
  exists r, w'. split; [exact E|]. split; [exact R|].
  split; [eapply run_nil_iff; eassumption|].
  intros e ->. eapply run_strict_error; eassumption.
Qed.

(** ** Commands without a register *)

(** X2: [Clear], [Home], [ScrollDisplayLeft], [ScrollDisplayRight] and
    [Command] never change the session; each is one [writeByte] of its
    command (0x01, 0x02, 0x18, 0x1C, or the given byte) with control bits 0,
    followed (except for [Command]) by a 2 ms sleep that is slept even when
    the transmission failed; the error returned is that of the first
    failing bus call, and the events are those that precede that call. *)
Theorem plain_commands (l : Lcd) (cmd : Z) :
  steady true l 6 (byte_events l 0x01 0 ++ [Sleep 2000000]) Clear /\
  steady true l 6 (byte_events l 0x02 0 ++ [Sleep 2000000]) Home /\
  steady true l 6 (byte_events l 0x18 0 ++ [Sleep 2000000]) ScrollDisplayLeft /\
  steady true l 6 (byte_events l 0x1C 0 ++ [Sleep 2000000]) ScrollDisplayRight /\
  steady true l 6 (byte_events l cmd 0) (Command cmd) /\
  (forall w,
      Clear (mkState l w) = command_outcome l 0x01 2000000 w /\
      Home (mkState l w) = command_outcome l 0x02 2000000 w /\
      ScrollDisplayLeft (mkState l w) = command_outcome l 0x18 2000000 w /\
      ScrollDisplayRight (mkState l w) = command_outcome l 0x1C 2000000 w /\
      Command cmd (mkState l w) = byte_outcome l cmd 0 w) /\
  (forall w c d j,
      first_failure w 6 = Some j ->
      command_outcome l c d w =
      (Ret (Some (ErrTransport (j + calls w))),
       mkState l
         (mkWorld (bus_fails w) (S (j + calls w))
            (trace w ++ before_wire j (byte_events l c 0) ++ [Sleep d])))).
Proof.
  split; [|split; [|split; [|split; [|split; [|split]]]]].
  - apply (steady_command_then_sleep l (fun _ => CMD_Clear_Display)).
  - apply (steady_command_then_sleep l (fun _ => CMD_Return_Home)).
  - apply (steady_command_then_sleep l
             (fun _ => Z.lor (Z.lor CMD_Cursor_Shift OPT_Display_Move) OPT_Move_Left)).
  - apply (steady_command_then_sleep l
             (fun _ => Z.lor (Z.lor CMD_Cursor_Shift OPT_Display_Move) OPT_Move_Right)).
  - apply steady_writeByte.
  - intros w. unfold Clear, Home, ScrollDisplayLeft, ScrollDisplayRight, Command.
    rewrite !command_then_sleep_exact, writeByte_exact.
    exact (conj eq_refl (conj eq_refl (conj eq_refl (conj eq_refl eq_refl)))).
  - intros w c d j F. unfold command_outcome. now rewrite F.
Qed.

Lemma plain_commands_witness :
  Home (mkState (fresh LCD_16x2) dead_bus) =
    (Ret (Some (ErrTransport 0)),
     mkState (fresh LCD_16x2) (mkWorld (fun _ => true) 1 [Sleep 2000000])) /\
  command_outcome (fresh LCD_16x2) 0x02 2000000 dead_bus =
    (Ret (Some (ErrTransport 0)),
     mkState (fresh LCD_16x2) (mkWorld (fun _ => true) 1 [Sleep 2000000])).
Proof.
  pose proof (plain_commands (fresh LCD_16x2) 0) as H.
  destruct H as (_ & _ & _ & _ & _ & H6 & H7).
  split.
  - exact (proj1 (proj2 (H6 dead_bus))).
  - exact (H7 dead_bus 0x02 2000000 0%nat eq_refl).
Defined.

(** ** Backlight *)

Lemma steps_Backlight l v :
  steps true l 6 (byte_events (with_backlight v l) 0x00 0)
    (modify (with_backlight v) ;;; check writeByte 0x00 0 ;; ret None)
    (with_backlight v l).
Proof.
  apply steps_modify.
  eapply steps_cast; [| |eapply steps_check;
    [apply steady_steps, steady_writeByte|apply steady_steps, steady_ret_nil]].
  - reflexivity.
  - now rewrite app_nil_r.
Qed.

Lemma Backlight_total l v w :
  exists r w',
    (modify (with_backlight v) ;;; check writeByte 0x00 0 ;; ret None) (mkState l w) =
    (Ret r, mkState (with_backlight v l) w') /\
    run true 6 (byte_events (with_backlight v l) 0x00 0) w w' r.
Proof.
  unfold bind at 1, modify, bind at 1, get_lcd, set_lcd. cbn [lcd world].
  destruct (steady_writeByte true (with_backlight v l) 0 0 w) as (r & w' & E & R).
  unfold bind. rewrite E. exists r, w'. destruct r; split; auto.
Qed.

(** X3: [BacklightOn] and [BacklightOff] store the new backlight state
    before they transmit, so it holds whether or not the transmission
    succeeds; they transmit the value 0, whose raw transfers carry only the
    backlight bit (0x08, 0x0C, 0x08 when on; 0x00, 0x04, 0x00 when off), and
    stop at the first failing bus call. *)
Theorem Backlight_switch (s : State) :
  (exists r w',
      BacklightOn s = (Ret r, mkState (with_backlight true (lcd s)) w') /\
      run true 6
        (raw_transfers 0x08 (writeStrobeDelay (lcd s) * 1000)
                            (resetStrobeDelay (lcd s) * 1000) ++
         raw_transfers 0x08 (writeStrobeDelay (lcd s) * 1000)
                            (resetStrobeDelay (lcd s) * 1000))
        (world s) w' r) /\
  (exists r w',
      BacklightOff s = (Ret r, mkState (with_backlight false (lcd s)) w') /\
      run true 6
        (raw_transfers 0x00 (writeStrobeDelay (lcd s) * 1000)
                            (resetStrobeDelay (lcd s) * 1000) ++
         raw_transfers 0x00 (writeStrobeDelay (lcd s) * 1000)
                            (resetStrobeDelay (lcd s) * 1000))
        (world s) w' r).
Proof.
  destruct s as [l w]. cbn [lcd world]. split.
  - exact (Backlight_total l true w).
  - exact (Backlight_total l false w).
Qed.

(** ** Construction *)

Lemma steps_command_then_sleep l cmd d :
  steps true l 6 (byte_events l (cmd l) 0 ++ [Sleep d]) (command_then_sleep cmd d) l.
Proof. apply steady_steps, steady_command_then_sleep. Qed.

Lemma steps_NewLcd t :
  steps true (initial t) 54 (init_events (initial t)) NewLcd_steps (fresh t).
Proof.
  unfold NewLcd_steps.
  eapply steps_cast; [| |
    apply steps_sleep;
    eapply steps_check; [apply steady_steps, steady_writeByte|];
    apply steps_sleep;
    eapply steps_check; [apply steady_steps, steady_writeByte|];
    apply steps_sleep;
    eapply steps_check; [apply steady_steps, steady_writeByte|];
    apply steps_sleep;
    eapply steps_check; [apply steady_steps, steady_writeByte|];
    apply steps_sleep;
    apply steps_modify;
    eapply steps_check; [apply steps_command_then_sleep|];
    apply steps_modify;
    eapply steps_check; [apply steps_command_then_sleep|];
    apply steps_modify;
    eapply steps_check; [apply steps_command_then_sleep|];
    eapply steps_check; [apply steps_command_then_sleep|];
    eapply steps_check; [apply steps_command_then_sleep|];
    apply steady_steps, steady_ret_nil].
  - reflexivity.
  - unfold init_events. rewrite !app_nil_r. reflexivity.
Qed.

(** X4: [NewLcd] either returns a session and no error, or no session and
    an error.  It returns the session exactly when the bus accepts all 54
    bus calls of the initialisation; the session is then active, backlight
    off, strobe delays 200 and 30, function set 0x08, display control
    0x04 and entry mode 0x02, and the events are those of the documented
    sequence.  Otherwise the error is that of the first failing bus call,
    which is the last call made. *)
Theorem NewLcd_outcome (i2c : World) (t : LcdType) :
  (bus_ok i2c 54 /\
   NewLcd i2c t =
   (Ret (Some (fresh t), None), advance i2c 54 (init_events (initial t)))) \/
  (exists k w',
      NewLcd i2c t = (Ret (None, Some (ErrTransport k)), w') /\
      run true 54 (init_events (initial t)) i2c w' (Some (ErrTransport k))).
Proof.
  destruct (steps_NewLcd t i2c) as (r & w' & lx & E & R & L).
  unfold NewLcd. rewrite E. cbn [lcd world].
  destruct r as [e|].
  - right. pose proof (run_strict_error _ _ _ _ _ R) as T.
    destruct e as [k| |]; try contradiction.
    exists k, w'. split; [reflexivity|exact R].
  - left. rewrite (L eq_refl). destruct R as [-> B]. split; [exact B|reflexivity].
Qed.

(** ** Shutdown *)

Lemma run_progress n evs w w' r :
  run true (S n) evs w w' r ->
  bus_fails w' = bus_fails w /\ (calls w < calls w' <= calls w + S n)%nat.
Proof.
  unfold run. destruct r as [[k| |]|].
  - intros (F & C & K & _). split; [exact F|lia].
  - intros (S1 & _). discriminate S1.
  - intros (S1 & _). discriminate S1.
  - intros [-> _]. unfold advance. cbn [bus_fails calls]. split; [reflexivity|lia].
Qed.

(** X5: [Shutdown] always returns, with the session inactive and the
    backlight off.  It is best effort: the errors of backlight-off, clear
    and home are dropped and each of the three is still attempted, so at
    least three and at most 18 bus calls are made; when the bus accepts all
    18, the events are a 250 ms sleep, the value 0, the clear command and
    the home command, each command followed by a 2 ms sleep. *)
Theorem Shutdown_best_effort (s : State) :
  exists w',
    Shutdown s =
      (Ret tt, mkState (with_backlight false (with_active false (lcd s))) w') /\
    bus_fails w' = bus_fails (world s) /\
    (calls (world s) + 3 <= calls w' <= calls (world s) + 18)%nat /\
    (bus_ok (world s) 18 ->
     w' = advance (world s) 18
            (shutdown_events (with_backlight false (with_active false (lcd s))))).
Proof.
  destruct s as [l w]. cbn [lcd world].
  set (l1 := with_active false l).
  set (l2 := with_backlight false l1).
  set (w0 := mkWorld (bus_fails w) (calls w) (trace w ++ [Sleep (250 * Millisecond)])).
  destruct (Backlight_total l1 false w0) as (r1 & w1 & E1 & R1).
  destruct (steady_command_then_sleep l2 (fun _ => CMD_Clear_Display)
              (2 * Millisecond) w1) as (r2 & w2 & E2 & R2).
  destruct (steady_command_then_sleep l2 (fun _ => CMD_Return_Home)
              (2 * Millisecond) w2) as (r3 & w3 & E3 & R3).
  assert (E : Shutdown (mkState l w) = (Ret tt, mkState l2 w3)).
  { unfold Shutdown, discard.
    unfold bind at 1, modify, bind at 1, get_lcd, set_lcd. cbn [lcd world].
    unfold bind at 1, sleep at 1. cbn [lcd world].
    unfold bind at 1, bind at 1. fold l1 w0.
    unfold BacklightOff. rewrite E1. unfold ret at 1.
    unfold bind at 1, bind at 1. unfold Clear. fold l2. rewrite E2. unfold ret at 1.
    unfold bind at 1. unfold Home. rewrite E3. reflexivity. }
  exists w3. split; [exact E|].
  destruct (run_progress _ _ _ _ _ R1) as [F1 C1].
  destruct (run_progress _ _ _ _ _ R2) as [F2 C2].
  destruct (run_progress _ _ _ _ _ R3) as [F3 C3].
  cbn [calls bus_fails w0] in *. subst w0. cbn [calls bus_fails] in *.
  split; [congruence|]. split; [lia|].
  intros B.
  assert (B0 : bus_ok (mkWorld (bus_fails w) (calls w)
                         (trace w ++ [Sleep (250 * Millisecond)])) 18).
  { intros k Hk. apply B. exact Hk. }
  assert (N1 : r1 = None).
  { apply (run_nil_iff _ _ _ _ _ R1). eapply bus_ok_weaken; [|exact B0]. lia. }
  subst r1. destruct R1 as [-> B1].
  assert (N2 : r2 = None).
  { apply (run_nil_iff _ _ _ _ _ R2). apply bus_ok_advance.
    eapply bus_ok_weaken; [|exact B0]. lia. }
  subst r2. destruct R2 as [-> B2].
  assert (N3 : r3 = None).
  { apply (run_nil_iff _ _ _ _ _ R3). apply bus_ok_advance, bus_ok_advance.
    eapply bus_ok_weaken; [|exact B0]. lia. }
  subst r3. destruct R3 as [-> B3].
  rewrite !advance_advance. unfold advance, shutdown_events.
  cbn [bus_fails calls trace]. f_equal.
  rewrite <- !List.app_assoc. reflexivity.
Qed.

(** ** Loops over bytes *)

Lemma steady_for_each strict l n {A} (evs : A -> list event) xs body :
  (forall x, In x xs -> steady strict l n (evs x) (body x)) ->
  steady strict l (List.length xs * n) (flat_map evs xs) (for_each xs body).
Proof.
  induction xs as [|x xs IH]; intros H; cbn [for_each List.length flat_map].
  - apply steady_ret_nil.
  - cbn [Nat.mul]. apply steady_check.
    + apply H. now left.
    + apply IH. intros y Hy. apply H. now right.
Qed.

Lemma steady_write_runes strict l cs :
  steady strict l (6 * List.length cs) (data_events l cs) (write_runes cs).
Proof.
  induction cs as [|c cs IH]; cbn [write_runes List.length].
  - apply steady_ret_nil.
  - eapply steady_cast; [| |apply steady_check; [apply steady_writeByte|exact IH]].
    + lia.
    + unfold data_events. cbn [flat_map].
      now rewrite byte_events_transfer by apply to_byte_is_byte.
Qed.

Lemma steady_cgram_loop l count : forall a,
  steady true l (6 * count) (write_events l (alternating count a))
    (cgram_loop count a).
Proof.
  induction count as [|count IH]; intros a; cbn [cgram_loop alternating].
  - apply steady_ret_nil.
  - eapply steady_cast; [| |apply steady_check; [apply steady_writeByte|apply IH]].
    + lia.
    + reflexivity.
Qed.

(** X6: [TestWriteCGRam] never changes the session; it sends the CGRAM
    command 0x40 and then 80 data bytes that alternate between 0x55 and
    0xAA, 486 bus calls in all, and stops at the first failing call with
    that call's error. *)
Theorem TestWriteCGRam_pattern (l : Lcd) :
  steady true l 486
    (byte_events l 0x40 0 ++
     write_events l (List.concat (repeat [0x55; 0xAA] 40)))
    TestWriteCGRam.
Proof.
  unfold TestWriteCGRam.
  eapply steady_cast; [| |apply steady_check;
    [apply steady_writeByte|apply steady_cgram_loop]]; reflexivity.
Qed.

(** ** [Write] *)

Lemma Write_from_outcome l buf : forall i w,
  exists n r w',
    Write_from i buf (mkState l w) = (Ret (n, r), mkState l w') /\
    run true (6 * List.length buf) (write_events l buf) w w' r /\
    (r = None -> n = i + llen buf) /\
    (forall k, r = Some (ErrTransport k) ->
               i <= n < i + llen buf /\
               6 * (n - i) <= Z.of_nat k - Z.of_nat (calls w) < 6 * (n - i) + 6).
Proof.
  induction buf as [|c buf IH]; intros i w; cbn [Write_from].
  - exists i, None, w. split; [reflexivity|]. split; [apply run_refl|].
    split; [intros _; unfold llen; simpl; lia|discriminate].
  - destruct (steady_writeByte true l c PIN_RS w) as (r1 & w1 & E1 & R1).
    unfold bind. rewrite E1. destruct r1 as [e|].
    + exists i, (Some e), w1. split; [reflexivity|].
      split.
      { replace (6 * List.length (c :: buf))%nat
          with (6 + 6 * List.length buf)%nat by (simpl; lia).
        eapply run_error_then. exact R1. }
      split; [discriminate|].
      intros k Hk. inversion Hk. subst e.
      destruct R1 as (_ & _ & K & _). unfold llen. simpl List.length. lia.
    + destruct (IH (i + 1) w1) as (n & r & w' & E & R & N & K).
      exists n, r, w'. split; [exact E|]. split.
      { replace (6 * List.length (c :: buf))%nat
          with (6 + 6 * List.length buf)%nat by (simpl; lia).
        apply (run_nil_then true 6 _ (byte_events l c PIN_RS) _ w w1 w' r R1 R). }
      destruct R1 as [-> _]. unfold advance in K. cbn [calls] in K.
      unfold llen in *. simpl List.length.
      split; [intros Hr; specialize (N Hr); lia|].
      intros k Hk. specialize (K k Hk). lia.
Qed.

(** X7: [Write] sends the bytes of the buffer in order as data (control
    bits PIN_RS) and never changes the session.  With a bus that accepts
    all [6 * len(buf)] calls it returns [len(buf)] and nil; otherwise it
    stops at the first failing bus call and returns that call's error with
    the index of the byte whose transmission failed, which is the number
    of bytes sent in full. *)
Theorem Write_outcome (s : State) (buf : list Z) :
  exists n r w',
    Write buf s = (Ret (n, r), mkState (lcd s) w') /\
    run true (6 * List.length buf) (write_events (lcd s) buf) (world s) w' r /\
    (r = None <-> bus_ok (world s) (6 * List.length buf)) /\
    (r = None -> n = llen buf) /\
    (forall k, r = Some (ErrTransport k) ->
               0 <= n < llen buf /\
               6 * n <= Z.of_nat k - Z.of_nat (calls (world s)) < 6 * n + 6).
Proof.
  destruct s as [l w]. cbn [lcd world]. unfold Write.
  destruct (Write_from_outcome l buf 0 w) as (n & r & w' & E & R & N & K).
  exists n, r, w'. split; [exact E|]. split; [exact R|].
  split; [eapply run_nil_iff; eassumption|].
  split; [intros Hr; specialize (N Hr); lia|].
  intros k Hk. specialize (K k Hk). lia.
Qed.

(** ** [Fill] *)

Lemma steady_error_room strict l n evs e :
  steady strict l 0 [] (ret (Some e)) -> steady strict l n evs (ret (Some e)).
Proof.
  intros H w. destruct (H w) as (r & w' & E & R).
  unfold ret in *. inversion E. subst r w'.
  exists (Some e), w. split; [reflexivity|].
  apply (run_error_then strict 0 n [] evs). exact R.
Qed.

Lemma steady_ext strict l n evs m m' :
  (forall w, m' (mkState l w) = m (mkState l w)) ->
  steady strict l n evs m -> steady strict l n evs m'.
Proof.
  intros Hext H w. rewrite Hext. apply H.
Qed.

Lemma steady_SetPosition_in_range l line pos :
  active l = true -> supported l ->
  0 <= pos <= fst (getSize l) - 1 -> 0 <= line <= snd (getSize l) - 1 ->
  steady true l 6 (byte_transfer l (position_command line pos) 0)
    (SetPosition line pos).
Proof.
  intros Ha Hs Hp Hl.
  assert (G : exists w h, getSize l = (w, h) /\ w <> -1 /\ h <> -1 /\ h <= 4).
  { destruct (supported_getSize _ Hs) as [E | E]; rewrite E;
      do 2 eexists; (split; [reflexivity|]); lia. }
  destruct G as (w & h & Hg & Hw & Hh & Hh4). rewrite Hg in *. cbn [fst snd] in *.
  apply (steady_ext true l 6 _ (writeByte (position_command line pos) 0)).
  - intros wd.
    rewrite (SetPosition_checked (mkState l wd) line pos w h Ha Hg Hw Hh Hh4).
    destruct (pos <? 0) eqn:E1; [bool_to_Z; lia|].
    destruct (pos >? w - 1) eqn:E2; [bool_to_Z; lia|].
    destruct (line <? 0) eqn:E3; [bool_to_Z; lia|].
    destruct (line >? h - 1) eqn:E4; [bool_to_Z; lia|].
    reflexivity.
  - eapply steady_cast; [reflexivity| |apply steady_writeByte].
    apply byte_events_transfer, to_byte_is_byte.
Qed.

Lemma upto_range n x : In x (upto n) -> 0 <= x < n.
Proof.
  unfold upto. rewrite in_map_iff. intros (k & <- & Hk).
  apply in_seq in Hk. lia.
Qed.

Lemma length_upto n : 0 <= n -> Z.of_nat (List.length (upto n)) = n.
Proof. intros H. unfold upto. rewrite length_map, length_seq. lia. Qed.

(** X8: on an active session [Fill] does nothing at all for an unknown
    geometry; on a supported geometry of width w and height h it never
    changes the session and never returns a validation error: for each line
    from 0 to h-1 it sends the position-set command of column 0 and then w
    times the character as data, [h * (6 + 6 * w)] bus calls in all, and it
    stops at the first failing call with that call's error. *)
Theorem Fill_outcome (s : State) (char : Z) :
  active (lcd s) = true ->
  (lcdType (lcd s) = LCD_UNKNOWN -> Fill char s = (Ret None, s)) /\
  (supported (lcd s) ->
   let w := fst (getSize (lcd s)) in
   let h := snd (getSize (lcd s)) in
   exists r w',
     Fill char s = (Ret r, mkState (lcd s) w') /\
     run true (Z.to_nat h * (6 + Z.to_nat w * 6))
       (fill_events (lcd s) char w h) (world s) w' r).
Proof.
  intros Ha. split.
  - intros Ht. unfold Fill. unfold bind, get_lcd. rewrite Ha.
    unfold getSize. rewrite Ht. reflexivity.
  - intros Hs. cbv zeta. destruct s as [l wd]. cbn [lcd world] in *.
    assert (G : exists w h, getSize l = (w, h) /\ 1 < w * h /\ 0 <= w /\ 0 <= h).
    { destruct (supported_getSize _ Hs) as [E | E]; rewrite E;
        do 2 eexists; (split; [reflexivity|]); lia. }
    destruct G as (w & h & Hg & Hwh & Hw & Hh).
    assert (S : steady true l (Z.to_nat h * (6 + Z.to_nat w * 6))
                  (fill_events l char w h)
                  (for_each (upto h) (fun lineCount =>
                     check SetPosition lineCount 0 ;;
                     for_each (upto w) (fun _ => writeByte (to_byte char) PIN_RS)))).
    { eapply steady_cast; [| |apply steady_for_each
        with (n := (6 + Z.to_nat w * 6)%nat)
             (evs := fun lineCount =>
               byte_transfer l (position_command lineCount 0) 0 ++
               flat_map (fun _ => byte_transfer l (to_byte char) PIN_RS) (upto w))].
      - f_equal. pose proof (length_upto h Hh). lia.
      - reflexivity.
      - intros line Hl. apply upto_range in Hl.
        apply steady_check.
        + apply steady_SetPosition_in_range; try assumption;
            rewrite Hg; cbn [fst snd]; lia.
        + eapply steady_cast; [| |apply steady_for_each
            with (n := 6%nat)
                 (evs := fun _ : Z => byte_transfer l (to_byte char) PIN_RS)].
          * f_equal. pose proof (length_upto w Hw). lia.
          * reflexivity.
          * intros x _. eapply steady_cast; [reflexivity| |apply steady_writeByte].
            apply byte_events_transfer, to_byte_is_byte. }
    destruct (S wd) as (r & w' & E & R).
    exists r, w'. rewrite Hg. cbn [fst snd]. split; [|exact R].
    rewrite <- E. unfold Fill. unfold bind at 1, get_lcd. cbn [lcd].
    rewrite Ha, Hg. cbn [negb].
    destruct (w * h <=? 1) eqn:E1; [bool_to_Z; lia|]. reflexivity.
Qed.

Lemma Fill_outcome_witness :
  Fill 65 (mkState (fresh LCD_UNKNOWN) quiet_bus) =
    (Ret None, mkState (fresh LCD_UNKNOWN) quiet_bus) /\
  exists r w',
    Fill 65 (mkState (fresh LCD_16x2) quiet_bus) =
      (Ret r, mkState (fresh LCD_16x2) w') /\
    run true 204 (fill_events (fresh LCD_16x2) 65 16 2) quiet_bus w' r.
Proof.
  split.
  - exact (proj1 (Fill_outcome (mkState (fresh LCD_UNKNOWN) quiet_bus) 65 eq_refl)
             eq_refl).
  - exact (proj2 (Fill_outcome (mkState (fresh LCD_16x2) quiet_bus) 65 eq_refl)
             (or_introl eq_refl)).
Defined.

(** ** [ShowMessage] on a text with segments *)

Lemma index_middle {A} (pre : list A) x rest :
  index (pre ++ x :: rest) (llen pre) = Ret x.
Proof.
  unfold index, llen. rewrite length_app. cbn [List.length].
  destruct (0 <=? Z.of_nat (List.length pre)) eqn:E1; [|bool_to_Z; lia].
  destruct (Z.of_nat (List.length pre)
            <? Z.of_nat (List.length pre + S (List.length rest))) eqn:E2;
    [|bool_to_Z; lia].
  cbn [andb]. rewrite Nat2Z.id.
  rewrite nth_error_app2 by lia. now rewrite Nat.sub_diag.
Qed.

Lemma steady_lift_ret strict l n evs {A} (o : outcome A) v
    (k : A -> M (option error)) :
  o = Ret v -> steady strict l n evs (k v) ->
  steady strict l n evs (x <- lift o ;; k x).
Proof. intros -> H w. unfold bind, lift. apply H. Qed.

Lemma SetPosition_unchecked s line pos :
  lcdType (lcd s) = LCD_UNKNOWN -> active (lcd s) = true -> 0 <= line <= 3 ->
  SetPosition line pos s = writeByte (position_command line pos) 0 s.
Proof.
  intros Ht Ha Hl. unfold SetPosition. unfold bind at 1, get_lcd. rewrite Ha.
  unfold getSize. rewrite Ht. cbn [negb Z.eqb andb].
  unfold bind, lift. rewrite index_lineOffset by exact Hl.
  unfold position_command. now rewrite to_byte_add.
Qed.

Lemma steady_SetPosition_unchecked l line pos :
  lcdType l = LCD_UNKNOWN -> active l = true -> 0 <= line <= 3 ->
  steady true l 6 (byte_transfer l (position_command line pos) 0)
    (SetPosition line pos).
Proof.
  intros Ht Ha Hl.
  apply (steady_ext true l 6 _ (writeByte (position_command line pos) 0)).
  - intros w. now apply SetPosition_unchecked.
  - eapply steady_cast; [reflexivity| |apply steady_writeByte].
    apply byte_events_transfer, to_byte_is_byte.
Qed.

Lemma steady_SetPosition_checked l line pos :
  active l = true -> supported l ->
  steady false l 6 (byte_transfer l (position_command line pos) 0)
    (SetPosition line pos).
Proof.
  intros Ha Hs.
  assert (G : exists w h, getSize l = (w, h) /\ w <> -1 /\ h <> -1 /\ h <= 4).
  { destruct (supported_getSize _ Hs) as [E | E]; rewrite E;
      do 2 eexists; (split; [reflexivity|]); lia. }
  destruct G as (w & h & Hg & Hw & Hh & Hh4).
  intros wd.
  rewrite (SetPosition_checked (mkState l wd) line pos w h Ha Hg Hw Hh Hh4).
  destruct ((pos <? 0) || (pos >? w - 1)).
  { exists (Some (ErrPosition pos (w - 1))), wd. split; [reflexivity|].
    apply (run_error_then false 0 6 [] _). apply run_validation. intros []. }
  destruct ((line <? 0) || (line >? h - 1)).
  { exists (Some (ErrLine line (h - 1))), wd. split; [reflexivity|].
    apply (run_error_then false 0 6 [] _). apply run_validation. intros []. }
  destruct (steady_writeByte true l (position_command line pos) 0 wd)
    as (r & w' & E & R).
  exists r, w'. split; [exact E|]. apply run_weaken.
  now rewrite <- byte_events_transfer by apply to_byte_is_byte.
Qed.

Lemma steady_ShowMessage_loop strict l a b lines :
  let ranged := negb (a =? -1) && negb (b =? -1) in
  (ranged = true ->
   forall j, 0 <= j < llen lines ->
     steady strict l 6 (byte_transfer l (position_command (j + a) 0) 0)
       (SetPosition (j + a) 0)) ->
  forall rest pre fuel,
    lines = pre ++ rest -> rest <> [] -> (List.length rest <= fuel)%nat ->
    steady strict l (message_calls ranged rest)
      (message_events l ranged (llen pre + a) rest)
      (ShowMessage_loop fuel lines a b (llen pre)).
Proof.
  intros ranged Hpos rest.
  induction rest as [|x rest IH]; intros pre fuel Hl Hne Hf; [congruence|].
  destruct fuel as [|fuel]; [simpl in Hf; lia|].
  cbn [ShowMessage_loop message_calls message_events]. fold ranged.
  assert (C : steady strict l (if ranged then 6 else 0)%nat
                (if ranged then byte_transfer l (position_command (llen pre + a) 0) 0
                 else [])
                (if ranged then SetPosition (llen pre + a) 0 else ret None)).
  { destruct ranged eqn:Er.
    - apply Hpos; [reflexivity|]. subst lines. unfold llen.
      rewrite length_app. cbn [List.length]. lia.
    - apply steady_ret_nil. }
  assert (I : index lines (llen pre) = Ret x).
  { subst lines. apply index_middle. }
  destruct rest as [|y rest].
  - eapply steady_cast; [| |apply steady_check; [exact C|
      eapply steady_lift_ret; [exact I|
        apply steady_check; [apply steady_write_runes|]]]].
    3:{ assert (T : (llen pre =? llen lines - 1) = true).
        { apply Z.eqb_eq. subst lines. unfold llen. rewrite length_app.
          cbn [List.length]. lia. }
        rewrite T. apply steady_ret_nil. }
    + cbn [message_calls]. lia.
    + cbn [message_events]. now rewrite !app_nil_r.
  - eapply steady_cast; [| |apply steady_check; [exact C|
      eapply steady_lift_ret; [exact I|
        apply steady_check; [apply steady_write_runes|]]]].
    3:{ assert (T : (llen pre =? llen lines - 1) = false).
        { apply Z.eqb_neq. subst lines. unfold llen. rewrite length_app.
          cbn [List.length]. lia. }
        rewrite T.
        replace (llen pre + 1) with (llen (pre ++ [x]))
          by (unfold llen; rewrite length_app; cbn [List.length]; lia).
        apply IH.
        - subst lines. now rewrite <- List.app_assoc.
        - discriminate.
        - cbn [List.length] in *. lia. }
    + lia.
    + rewrite <- !List.app_assoc. do 2 f_equal.
      replace (llen (pre ++ [x]) + a) with (llen pre + a + 1)
        by (unfold llen; rewrite length_app; cbn [List.length]; lia).
      reflexivity.
Qed.

Lemma ShowMessage_enters l text options lines w :
  active l = true -> splitText l text options = Ret lines ->
  ShowMessage text options (mkState l w) =
  ShowMessage_loop (S (List.length lines)) lines
    (fst (getLineRange options)) (snd (getLineRange options)) 0 (mkState l w).
Proof.
  intros Ha Hs. unfold ShowMessage. unfold bind at 1, get_lcd. cbn [lcd].
  rewrite Ha. cbn [negb]. unfold bind at 1, lift at 1. rewrite Hs.
  destruct (getLineRange options) as [a b]. reflexivity.
Qed.

Lemma positioned_range options :
  positioned options = range_active options.
Proof.
  unfold positioned, range_active.
  pose proof (getLineRange_cases options) as H.
  destruct (getLineRange options) as [a b]. cbn [fst].
  destruct (a =? -1) eqn:Ea; destruct (b =? -1) eqn:Eb; bool_to_Z;
    cbn [negb andb]; try reflexivity; lia.
Qed.

(** X9: on an active session, when the layout returns the segments
    [lines] (at least one) and, on a supported geometry with line flags,
    the last segment still lies on the display, [ShowMessage] never changes
    the session and never returns a validation error: for each segment in
    turn it sends the position-set command of column 0 of line
    [startLine + index] (only when a line flag is set) and then the low
    byte of each rune of the segment as data; it stops at the first failing
    bus call with that call's error. *)
Theorem ShowMessage_on_display (s : State) (text : string) (options : Z)
    (lines : list string) :
  active (lcd s) = true ->
  splitText (lcd s) text options = Ret lines ->
  lines <> [] ->
  (supported (lcd s) -> positioned options = true ->
   fst (getLineRange options) + llen lines <= snd (getSize (lcd s))) ->
  exists r w',
    ShowMessage text options s = (Ret r, mkState (lcd s) w') /\
    run true (message_calls (positioned options) lines)
      (message_events (lcd s) (positioned options)
         (fst (getLineRange options)) lines)
      (world s) w' r.
Proof.
  intros Ha Hs Hne Hfit. destruct s as [l w]. cbn [lcd world] in *.
  rewrite (ShowMessage_enters l text options lines w Ha Hs).
  pose proof (getLineRange_cases options) as HR.
  unfold positioned in *.
  destruct (getLineRange options) as [a b] eqn:G. cbn [fst snd] in *.
  assert (Hloop := steady_ShowMessage_loop true l a b lines).
  cbv zeta in Hloop.
  apply (Hloop) with (rest := lines) (pre := []) (fuel := S (List.length lines)).
  - intros Hr j Hj.
    assert (A3 : 0 <= a <= 3).
    { destruct (a =? -1) eqn:Ea; [discriminate|]. bool_to_Z. lia. }
    destruct (lcdType l) eqn:Ht.
    + assert (L1 : lines = [text]).
      { unfold splitText, getSize in Hs. rewrite Ht in Hs. cbn [fst] in Hs.
        unfold splitTextW in Hs. rewrite G in Hs. cbn [Z.eqb negb andb] in Hs.
        destruct (len text >? 0); inversion Hs; subst; [reflexivity|congruence]. }
      subst lines. unfold llen in Hj. cbn [List.length] in Hj.
      assert (j = 0) by lia. subst j.
      apply steady_SetPosition_unchecked; auto; lia.
    + assert (Sp : supported l) by (left; exact Ht).
      specialize (Hfit Sp Hr).
      apply steady_SetPosition_in_range; auto;
        unfold getSize in *; rewrite Ht in *; cbn [fst snd] in *; lia.
    + assert (Sp : supported l) by (right; exact Ht).
      specialize (Hfit Sp Hr).
      apply steady_SetPosition_in_range; auto;
        unfold getSize in *; rewrite Ht in *; cbn [fst snd] in *; lia.
  - reflexivity.
  - exact Hne.
  - lia.
Qed.

Lemma ShowMessage_on_display_witness :
  exists r w',
    ShowMessage "Hi" SHOW_LINE_2 (mkState (fresh LCD_16x2) quiet_bus) =
      (Ret r, mkState (fresh LCD_16x2) w') /\
    run true 18
      (byte_transfer (fresh LCD_16x2) 0xC0 0 ++
       byte_transfer (fresh LCD_16x2) 0x48 PIN_RS ++
       byte_transfer (fresh LCD_16x2) 0x69 PIN_RS)
      quiet_bus w' r.
Proof.
  refine (ShowMessage_on_display (mkState (fresh LCD_16x2) quiet_bus)
            "Hi" SHOW_LINE_2 ["Hi"] eq_refl eq_refl _ _).
  - discriminate.
  - intros _ _. simpl. lia.
Defined.

(** ** The layout as a whole *)

Lemma str_app_assoc (a b c : string) : ((a ++ b) ++ c = a ++ (b ++ c))%string.
Proof. induction a as [|x a IH]; simpl; [reflexivity|now rewrite IH]. Qed.

Lemma take_add n m s : take (n + m) s = (take n s ++ take m (drop n s))%string.
Proof.
  revert s. induction n as [|n IH]; intros s; simpl.
  - reflexivity.
  - destruct s as [|c s]; simpl.
    + now destruct m.
    + now rewrite IH.
Qed.

Lemma join_app a b : join (a ++ b) = (join a ++ join b)%string.
Proof.
  induction a as [|x a IH]; simpl; [reflexivity|].
  now rewrite IH, str_app_assoc.
Qed.

Lemma join_segments wn k : forall text,
  join (map (segment wn text) (seq 0 k)) = take (k * wn) text.
Proof.
  induction k as [|k IH]; intros text.
  - reflexivity.
  - cbn [seq map]. rewrite <- seq_shift, map_map. cbn [join fold_right].
    fold (join (map (fun x => segment wn text (S x)) (seq 0 k))).
    assert (E : map (fun x => segment wn text (S x)) (seq 0 k) =
                map (segment wn (drop wn text)) (seq 0 k)).
    { apply map_ext. intros i. unfold segment.
      rewrite !substring_take_drop, drop_drop.
      replace (S i * wn)%nat with (wn + i * wn)%nat by lia. reflexivity. }
    rewrite E, IH. unfold segment. rewrite substring_take_drop. cbn [Nat.mul drop].
    replace (S k * wn)%nat with (wn + k * wn)%nat by lia.
    now rewrite take_add.
Qed.

Lemma blanks_add a b : blanks (a + b) = (blanks a ++ blanks b)%string.
Proof.
  unfold blanks. induction a as [|a IH]; simpl; [reflexivity|now rewrite IH].
Qed.

Lemma join_blank_lines wn m : join (repeat (blanks wn) m) = blanks (m * wn).
Proof.
  induction m as [|m IH]; simpl; [reflexivity|].
  fold (join (repeat (blanks wn) m)). now rewrite IH, blanks_add.
Qed.

Lemma Forall_segments wn text k :
  Forall (fun seg => (String.length seg <= wn)%nat)
    (map (segment wn text) (seq 0 k)).
Proof.
  apply Forall_forall. intros seg H. apply in_map_iff in H.
  destruct H as (i & <- & _). rewrite length_segment. lia.
Qed.

Lemma layout_of_text_W (w : Z) (text : string) (options : Z) :
  0 < w -> range_active options = true -> text <> "" ->
  exists lines,
    splitTextW w text options = Ret lines /\
    lines <> [] /\
    (List.length lines <= range_lines options)%nat /\
    Forall (fun seg => (String.length seg <= Z.to_nat w)%nat) lines /\
    join lines = flattened (Z.to_nat w) (range_lines options) text options.
Proof.
  intros Hw Ha Hne.
  destruct (splitTextW_after_loop w Hw text options Ha) as [Hn _].
  assert (Hwn : (0 < Z.to_nat w)%nat) by lia.
  assert (Hlen : (0 < String.length text)%nat).
  { destruct text; [congruence|simpl; lia]. }
  set (wn := Z.to_nat w) in *. set (n := range_lines options) in *.
  unfold flattened.
  destruct (Nat.lt_ge_cases (n * wn) (String.length text)) as [Hr | Hr].
  - rewrite (proj2 (Nat.ltb_lt _ _) Hr).
    destruct (flag options SHOW_ELIPSE_IF_NOT_FIT) eqn:He.
    + eexists. split; [apply (layout_ellipsis w Hw text options Ha Hr He)|].
      fold wn n.
      split; [intros C; apply app_eq_nil in C; destruct C; discriminate|].
      split; [rewrite length_app, length_map, length_seq; simpl; lia|].
      split.
      * apply Forall_app. split; [apply Forall_segments|].
        constructor; [|constructor].
        rewrite length_append, substring_take_drop, length_take, length_drop.
        simpl. lia.
      * rewrite join_app, join_segments. cbn [join fold_right].
        rewrite append_empty_r, <- str_app_assoc.
        rewrite substring_take_drop, <- take_add.
        do 2 f_equal. nia.
    + eexists. split; [apply (layout_dropped w Hw text options Ha Hr He)|].
      fold wn n.
      split; [destruct n; [lia|discriminate]|].
      split; [rewrite length_map, length_seq; lia|].
      split; [apply Forall_segments|apply join_segments].
  - rewrite (proj2 (Nat.ltb_ge _ _) Hr).
    destruct (segments_when_text_fits w Hw _ _ Hr) as [_ Hk]. fold wn n in Hk.
    pose proof (segments_needed_bounds wn (String.length text) Hwn) as B.
    assert (K1 : (1 <= segments_needed wn (String.length text))%nat) by nia.
    destruct (flag options SHOW_BLANK_PADDING) eqn:Hp.
    + eexists. split;
        [apply (layout_padded w Hw text options Ha (conj Hlen Hr) Hp)|].
      fold wn n.
      set (k := segments_needed wn (String.length text)) in *.
      assert (L : String.length (segment wn text (k - 1)) =
                  (String.length text - (k - 1) * wn)%nat).
      { rewrite length_segment. nia. }
      split; [intros C; apply app_eq_nil in C; destruct C; discriminate|].
      split; [rewrite !length_app, length_map, length_seq, repeat_length; simpl; lia|].
      split.
      * apply Forall_app. split; [apply Forall_segments|].
        apply Forall_app. split.
        { constructor; [|constructor]. rewrite length_append, length_blanks.
          pose proof (length_segment wn text (k - 1)) as L2. lia. }
        apply Forall_forall. intros seg Hs. apply repeat_spec in Hs. subst seg.
        rewrite length_blanks. lia.
      * rewrite !join_app, join_blank_lines. cbn [join fold_right].
        rewrite append_empty_r.
        rewrite <- !str_app_assoc.
        assert (T : (join (map (segment wn text) (seq 0 (k - 1))) ++
                     segment wn text (k - 1))%string = text).
        { rewrite join_segments. unfold segment. rewrite substring_take_drop.
          rewrite <- take_add. apply take_all. nia. }
        rewrite T, str_app_assoc, <- blanks_add. do 2 f_equal. rewrite L. nia.
    + eexists. split; [apply (layout_fits w Hw text options Ha Hr Hp)|].
      fold wn n.
      split; [destruct (segments_needed wn (String.length text)); [lia|discriminate]|].
      split; [rewrite length_map, length_seq; lia|].
      split; [apply Forall_segments|].
      rewrite join_segments. apply take_all. lia.
Qed.

Lemma splitText_fallback l text options :
  supportedb l && range_active options = false ->
  splitText l text options = if len text >? 0 then Ret [text] else Ret [].
Proof.
  unfold splitText, splitTextW, supportedb, range_active, getSize.
  pose proof (getLineRange_cases options) as H.
  destruct (getLineRange options) as [a b]. cbn [fst].
  destruct (lcdType l); cbn [fst Z.eqb negb andb]; try reflexivity;
    destruct (a =? -1) eqn:Ea; cbn [negb andb]; try discriminate; reflexivity.
Qed.

(** X10: on a non-empty text [splitText] always returns, with at least
    one segment, whatever the geometry and the options.  Without a line
    flag, or on an unknown geometry, the result is the whole text as one
    segment, and the ellipsis and padding options have no effect. *)
Theorem splitText_on_text (l : Lcd) (text : string) (options : Z) :
  text <> "" ->
  (exists lines, splitText l text options = Ret lines /\ lines <> []) /\
  (supportedb l && range_active options = false ->
   splitText l text options = Ret [text]).
Proof.
  intros Hne.
  assert (Hlen : (len text >? 0) = true).
  { destruct text; [congruence|]. unfold len. simpl String.length.
    apply Z.gtb_gt. lia. }
  assert (F : supportedb l && range_active options = false ->
              splitText l text options = Ret [text]).
  { intros H. rewrite splitText_fallback by exact H. now rewrite Hlen. }
  split; [|exact F].
  destruct (supportedb l && range_active options) eqn:E.
  - apply andb_true_iff in E. destruct E as [Es Ea].
    assert (Hs : supported l).
    { unfold supportedb in Es. unfold supported.
      destruct (lcdType l); [discriminate|now left|now right]. }
    destruct (splitText_supported l text options Hs) as [Hw ->].
    destruct (layout_of_text_W _ text options Hw Ea Hne) as (lines & E & N & _).
    exists lines. auto.
  - exists [text]. split; [now apply F|discriminate].
Qed.

Lemma splitText_on_text_witness :
  splitText (fresh LCD_UNKNOWN) "hello"
    (Z.lor (Z.lor SHOW_LINE_1 SHOW_ELIPSE_IF_NOT_FIT) SHOW_BLANK_PADDING) =
    Ret ["hello"] /\
  splitText (fresh LCD_20x4) "hello" SHOW_BLANK_PADDING = Ret ["hello"].
Proof.
  split.
  - refine (proj2 (splitText_on_text (fresh LCD_UNKNOWN) "hello"
                     (Z.lor (Z.lor SHOW_LINE_1 SHOW_ELIPSE_IF_NOT_FIT)
                            SHOW_BLANK_PADDING) _) eq_refl).
    discriminate.
  - refine (proj2 (splitText_on_text (fresh LCD_20x4) "hello"
                     SHOW_BLANK_PADDING _) eq_refl).
    discriminate.
Defined.

(** X11: on a supported geometry of width w with an active range of n
    lines, the segments of a non-empty text are at most n, none is longer
    than w, and read in order they are the text itself when it fits (with
    spaces up to [n * w] characters under the blank-padding option) and its
    first [n * w] characters when it does not (the last of them replaced
    with [~] under the ellipsis option). *)
Theorem layout_as_a_whole (l : Lcd) (text : string) (options : Z) :
  supported l -> range_active options = true -> text <> "" ->
  let wn := Z.to_nat (fst (getSize l)) in
  exists lines,
    splitText l text options = Ret lines /\
    (List.length lines <= range_lines options)%nat /\
    Forall (fun seg => (String.length seg <= wn)%nat) lines /\
    join lines = flattened wn (range_lines options) text options.
Proof.
  intros Hs Ha Hne. cbv zeta.
  destruct (splitText_supported l text options Hs) as [Hw ->].
  destruct (layout_of_text_W _ text options Hw Ha Hne) as (lines & E & _ & C & F & J).
  exists lines. auto.
Qed.

Lemma layout_as_a_whole_witness :
  exists lines,
    splitText (fresh LCD_16x2) "The quick brown fox jumps over the lazy dog"
      (Z.lor (Z.lor SHOW_LINE_1 SHOW_LINE_2) SHOW_ELIPSE_IF_NOT_FIT) = Ret lines /\
    (List.length lines <= 2)%nat /\
    Forall (fun seg => (String.length seg <= 16)%nat) lines /\
    join lines = "The quick brown fox jumps over ~".
Proof.
  refine (layout_as_a_whole (fresh LCD_16x2)
            "The quick brown fox jumps over the lazy dog"
            (Z.lor (Z.lor SHOW_LINE_1 SHOW_LINE_2) SHOW_ELIPSE_IF_NOT_FIT)
            (or_introl eq_refl) eq_refl _).
  discriminate.
Defined.

(** ** [ShowMessage]: safety on a non-empty text, and lines off the display *)

Lemma splitText_returns_on_text l text options :
  text <> "" ->
  exists lines,
    splitText l text options = Ret lines /\ lines <> [] /\
    (supportedb l = false -> lines = [text]).
Proof.
  intros Hne.
  assert (Hlen : (len text >? 0) = true).
  { destruct text; [congruence|]. unfold len. simpl String.length.
    apply Z.gtb_gt. lia. }
  destruct (supportedb l && range_active options) eqn:E.
  - apply andb_true_iff in E. destruct E as [Es Ea].
    assert (Hs : supported l).
    { unfold supportedb in Es. unfold supported.
      destruct (lcdType l); [discriminate|now left|now right]. }
    destruct (splitText_supported l text options Hs) as [Hw ->].
    destruct (layout_of_text_W _ text options Hw Ea Hne) as (lines & E & N & _).
    exists lines. split; [exact E|]. split; [exact N|].
    intros C. rewrite C in Es. discriminate.
  - exists [text]. rewrite splitText_fallback by exact E. rewrite Hlen.
    split; [reflexivity|]. split; [discriminate|reflexivity].
Qed.

(** ** [ShowMessage] when a segment falls off the display *)

Lemma stopped_after n1 n2 e1 e2 e w w1 w2 r :
  run true n1 e1 w w1 None -> stopped_by e n2 e2 w1 w2 r ->
  stopped_by e (n1 + n2) (e1 ++ e2) w w2 r.
Proof.
  intros R1 [(B2 & -> & ->) | (k & -> & R2)].
  - left. destruct R1 as [-> B1]. split; [eapply bus_ok_split; eassumption|].
    split; [reflexivity|apply advance_advance].
  - right. exists k. split; [reflexivity|].
    eapply run_nil_then; eassumption.
Qed.

Lemma stopped_early n1 n2 e1 evs e e' w w1 :
  run true n1 e1 w w1 (Some e') ->
  stopped_by e (n1 + n2) evs w w1 (Some e').
Proof.
  intros R. pose proof (run_strict_error _ _ _ _ _ R) as T.
  destruct e' as [k| |]; try contradiction.
  right. exists k. split; [reflexivity|].
  eapply run_error_then. exact R.
Qed.

Lemma halts_check l e n1 n2 e1 e2 m k :
  steady true l n1 e1 m -> halts l e n2 e2 k ->
  halts l e (n1 + n2) (e1 ++ e2) (check m ;; k).
Proof.
  intros Hm Hk w. destruct (Hm w) as (r & w1 & E & R).
  unfold bind. rewrite E. destruct r as [e'|].
  - exists (Some e'), w1. split; [reflexivity|]. eapply stopped_early. exact R.
  - destruct (Hk w1) as (r2 & w2 & E2 & R2).
    exists r2, w2. split; [exact E2|].
    eapply stopped_after; eassumption.
Qed.

Lemma halts_cast l e n n' evs evs' m :
  n = n' -> evs = evs' -> halts l e n evs m -> halts l e n' evs' m.
Proof. now intros -> ->. Qed.

Lemma halts_lift_ret l e n evs {A} (o : outcome A) v (k : A -> M (option error)) :
  o = Ret v -> halts l e n evs (k v) -> halts l e n evs (x <- lift o ;; k x).
Proof. intros -> H w. unfold bind, lift. apply H. Qed.

Lemma halts_ShowMessage_loop l a b lines wd h off :
  active l = true -> supported l -> getSize l = (wd, h) ->
  negb (a =? -1) && negb (b =? -1) = true -> 0 <= a ->
  h <= off + a ->
  (forall j, 0 <= j < off -> j + a <= h - 1) ->
  forall shown pre x rest fuel,
    lines = pre ++ shown ++ x :: rest ->
    llen pre + llen shown = off ->
    (List.length shown < fuel)%nat ->
    halts l (ErrLine (off + a) (h - 1))
      (message_calls true shown)
      (message_events l true (llen pre + a) shown)
      (ShowMessage_loop fuel lines a b (llen pre)).
Proof.
  intros Ha Hs Hg Hr Ha0 Hoff Hin shown.
  assert (G : wd <> -1 /\ h <> -1 /\ h <= 4 /\ 0 < wd /\ 0 < h).
  { destruct (supported_getSize _ Hs) as [E | E]; rewrite E in Hg;
      inversion Hg; subst; lia. }
  destruct G as (Hw & Hh & Hh4 & Hwp & Hhp).
  induction shown as [|y shown IH]; intros pre x rest fuel Hl Hlen Hf;
    (destruct fuel as [|fuel]; [simpl in Hf; lia|]).
  - cbn [ShowMessage_loop message_calls message_events]. rewrite Hr.
    unfold llen in Hlen. cbn [List.length] in Hlen.
    intros w. unfold bind at 1.
    rewrite (SetPosition_checked (mkState l w) (llen pre + a) 0 wd h Ha Hg Hw Hh Hh4).
    destruct (0 <? 0) eqn:E1; [discriminate|].
    destruct (0 >? wd - 1) eqn:E2; [bool_to_Z; lia|].
    destruct (llen pre + a <? 0) eqn:E3; [bool_to_Z; unfold llen in *; lia|].
    destruct (llen pre + a >? h - 1) eqn:E4; [|bool_to_Z; unfold llen in *; lia].
    cbn [orb]. do 2 eexists. split; [reflexivity|].
    left. split; [intros k Hk; lia|]. split.
    + do 2 f_equal. unfold llen in *. lia.
    + now rewrite advance_zero.
  - cbn [ShowMessage_loop message_calls message_events]. rewrite Hr.
    assert (I : index lines (llen pre) = Ret y).
    { subst lines. apply index_middle. }
    assert (T : (llen pre =? llen lines - 1) = false).
    { apply Z.eqb_neq. subst lines. unfold llen.
      rewrite !length_app. cbn [List.length]. lia. }
    assert (P : steady true l 6 (byte_transfer l (position_command (llen pre + a) 0) 0)
                  (SetPosition (llen pre + a) 0)).
    { apply steady_SetPosition_in_range; auto; rewrite Hg; cbn [fst snd].
      - lia.
      - unfold llen in *. cbn [List.length] in Hlen.
        specialize (Hin (Z.of_nat (List.length pre))). lia. }
    eapply halts_cast; [| |apply halts_check; [exact P|
      eapply halts_lift_ret; [exact I|
        apply halts_check; [apply steady_write_runes|]]]].
    3:{ rewrite T.
        replace (llen pre + 1) with (llen (pre ++ [y]))
          by (unfold llen; rewrite length_app; cbn [List.length]; lia).
        apply (IH (pre ++ [y]) x rest fuel).
        - subst lines. now rewrite <- List.app_assoc.
        - unfold llen in *. rewrite length_app. cbn [List.length] in *. lia.
        - cbn [List.length] in Hf. lia. }
    + lia.
    + rewrite <- !List.app_assoc. do 2 f_equal.
      replace (llen (pre ++ [y]) + a) with (llen pre + a + 1)
        by (unfold llen; rewrite length_app; cbn [List.length]; lia).
      reflexivity.
Qed.

(** X12: on an active session [ShowMessage] of a non-empty text never
    panics and never changes the session.  When every segment lies on the
    display, it returns nil after all the bus calls of its segments, or the
    error of the first failing bus call and nothing after it.  When, on a
    supported geometry with line flags, only the first [m] segments lie on
    the display, it sends these and then returns the validation error of
    line [startLine + m], or stops before at the first failing bus call
    with that call's error; no other error is returned. *)
Theorem ShowMessage_safe_on_text (s : State) (text : string) (options : Z) :
  active (lcd s) = true -> text <> "" ->
  exists lines r w',
    splitText (lcd s) text options = Ret lines /\
    ShowMessage text options s = (Ret r, mkState (lcd s) w') /\
    let m := on_display (lcd s) options lines in
    let shown := firstn m lines in
    let startLine := fst (getLineRange options) in
    if (m =? List.length lines)%nat
    then run true (message_calls (positioned options) lines)
           (message_events (lcd s) (positioned options) startLine lines)
           (world s) w' r
    else stopped_by (ErrLine (startLine + Z.of_nat m) (snd (getSize (lcd s)) - 1))
           (message_calls (positioned options) shown)
           (message_events (lcd s) (positioned options) startLine shown)
           (world s) w' r.
Proof.
  intros Ha Hne. destruct s as [l w]. cbn [lcd world] in *.
  destruct (splitText_returns_on_text l text options Hne) as (lines & Hs & Hn & Hu).
  exists lines.
  rewrite (ShowMessage_enters l text options lines w Ha Hs).
  pose proof (getLineRange_cases options) as HR.
  unfold on_display, positioned.
  destruct (getLineRange options) as [a b] eqn:G. cbn [fst snd] in *.
  cbv zeta.
  set (ranged := negb (a =? -1) && negb (b =? -1)) in *.
  assert (A3 : ranged = true -> 0 <= a <= 3).
  { subst ranged. intros Hr. destruct (a =? -1) eqn:Ea; [discriminate|].
    bool_to_Z. lia. }
  assert (Sup : supportedb l = true -> supported l).
  { unfold supportedb, supported.
    destruct (lcdType l); [discriminate|now left|now right]. }
  destruct ((if ranged && supportedb l
             then Nat.min (List.length lines) (Z.to_nat (snd (getSize l) - a))
             else List.length lines) =? List.length lines)%nat eqn:Em.
  - apply Nat.eqb_eq in Em.
    assert (Hloop := steady_ShowMessage_loop true l a b lines).
    cbv zeta in Hloop. fold ranged in Hloop.
    destruct (Hloop) with (rest := lines) (pre := @nil string)
                          (fuel := S (List.length lines)) (w := w)
      as (r & w' & E & R).
    + intros Hr j Hj. specialize (A3 Hr).
      destruct (supportedb l) eqn:Es.
      * rewrite Hr in Em. cbn [andb] in Em.
        specialize (Sup eq_refl).
        assert (Gs : exists wd h, getSize l = (wd, h) /\ 0 < wd).
        { destruct (supported_getSize _ Sup) as [E | E]; rewrite E;
            do 2 eexists; (split; [reflexivity|]); lia. }
        destruct Gs as (wd & h & Hg & Hwp). rewrite Hg in Em. cbn [snd] in Em.
        apply steady_SetPosition_in_range; auto; rewrite Hg; cbn [fst snd];
          unfold llen in Hj; lia.
      * rewrite (Hu eq_refl) in Hj. unfold llen in Hj. cbn [List.length] in Hj.
        assert (j = 0) by lia. subst j.
        apply steady_SetPosition_unchecked; auto; try lia.
        unfold supportedb in Es. destruct (lcdType l); congruence.
    + reflexivity.
    + exact Hn.
    + lia.
    + exists r, w'. split; [exact Hs|]. split; [exact E|exact R].
  - apply Nat.eqb_neq in Em.
    destruct (ranged && supportedb l) eqn:Ers; [|congruence].
    apply andb_true_iff in Ers. destruct Ers as [Hr Es].
    specialize (A3 Hr). specialize (Sup Es).
    assert (Gs : exists wd h, getSize l = (wd, h) /\ 0 < h).
    { destruct (supported_getSize _ Sup) as [E | E]; rewrite E;
        do 2 eexists; (split; [reflexivity|]); lia. }
    destruct Gs as (wd & h & Hg & Hhp). rewrite Hg in *. cbn [snd] in *.
    set (m := Nat.min (List.length lines) (Z.to_nat (h - a))) in *.
    assert (Hm : (m < List.length lines)%nat /\ m = Z.to_nat (h - a)) by lia.
    destruct Hm as [Hm1 Hm2].
    pose proof (firstn_skipn m lines) as Split.
    destruct (skipn m lines) as [|x rest] eqn:Sk.
    { pose proof (length_skipn m lines) as L. rewrite Sk in L.
      cbn [List.length] in L. lia. }
    assert (Lf : List.length (firstn m lines) = m) by (apply firstn_length_le; lia).
    assert (H0a : 0 <= a) by lia.
    assert (Hoffm : h <= Z.of_nat m + a) by lia.
    assert (Hinm : forall j, 0 <= j < Z.of_nat m -> j + a <= h - 1)
      by (intros j Hj; lia).
    assert (Hlen : llen (@nil string) + llen (firstn m lines) = Z.of_nat m)
      by (unfold llen; rewrite Lf; cbn [List.length]; lia).
    assert (Hfuel : (List.length (firstn m lines) < S (List.length lines))%nat)
      by lia.
    assert (Split' : lines = [] ++ firstn m lines ++ x :: rest)
      by (cbn [app]; now rewrite Split).
    destruct (halts_ShowMessage_loop l a b lines wd h (Z.of_nat m)
                Ha Sup Hg Hr H0a Hoffm Hinm
                (firstn m lines) (@nil string) x rest (S (List.length lines))
                Split' Hlen Hfuel w) as (r & w' & E & R).
    exists r, w'. split; [exact Hs|]. split; [exact E|].
    replace (a + Z.of_nat m) with (Z.of_nat m + a) by lia.
    rewrite Hr. exact R.
Qed.

Lemma ShowMessage_safe_on_text_witness :
  exists lines r w',
    splitText (fresh LCD_16x2) "0123456789abcdefghijklmnopqrstuvwxyz"
      (Z.lor SHOW_LINE_1 SHOW_LINE_4) = Ret lines /\
    ShowMessage "0123456789abcdefghijklmnopqrstuvwxyz" (Z.lor SHOW_LINE_1 SHOW_LINE_4)
      (mkState (fresh LCD_16x2) quiet_bus) =
      (Ret r, mkState (fresh LCD_16x2) w') /\
    let m := on_display (fresh LCD_16x2) (Z.lor SHOW_LINE_1 SHOW_LINE_4) lines in
    let shown := firstn m lines in
    if (m =? List.length lines)%nat
    then run true (message_calls true lines)
           (message_events (fresh LCD_16x2) true 0 lines) quiet_bus w' r
    else stopped_by (ErrLine (0 + Z.of_nat m) 1)
           (message_calls true shown)
           (message_events (fresh LCD_16x2) true 0 shown) quiet_bus w' r.
Proof.
  refine (ShowMessage_safe_on_text (mkState (fresh LCD_16x2) quiet_bus)
            "0123456789abcdefghijklmnopqrstuvwxyz" (Z.lor SHOW_LINE_1 SHOW_LINE_4)
            eq_refl _).
  discriminate.
Defined.

Lemma ShowMessage_off_display_with_lines (s : State) (text : string)
    (options : Z) (lines : list string) :
  active (lcd s) = true -> supported (lcd s) ->
  splitText (lcd s) text options = Ret lines ->
  positioned options = true ->
  snd (getSize (lcd s)) <= fst (getLineRange options) ->
  ShowMessage text options s =
  (Ret (Some (ErrLine (fst (getLineRange options)) (snd (getSize (lcd s)) - 1))), s).
Proof.
  intros Ha Hsup Hs Hp Hoff. destruct s as [l w]. cbn [lcd world] in *.
  rewrite (ShowMessage_enters l text options lines w Ha Hs).
  unfold positioned in Hp.
  destruct (getLineRange options) as [a b]. cbn [fst snd] in *.
  cbn [ShowMessage_loop]. rewrite Hp. change (0 + a) with a.
  assert (G : exists wd h, getSize l = (wd, h) /\ wd <> -1 /\ h <> -1 /\ h <= 4 /\
                           0 < wd /\ 0 < h).
  { destruct (supported_getSize _ Hsup) as [E | E]; rewrite E;
      do 2 eexists; (split; [reflexivity|]); lia. }
  destruct G as (wd & h & Hg & Hw & Hh & Hh4 & Hwp & Hhp). rewrite Hg in *.
  cbn [fst snd] in *.
  unfold bind at 1.
  rewrite (SetPosition_checked (mkState l w) a 0 wd h Ha Hg Hw Hh Hh4).
  destruct (0 <? 0) eqn:E1; [discriminate|].
  destruct (0 >? wd - 1) eqn:E2; [bool_to_Z; lia|].
  destruct (a <? 0) eqn:E3; [bool_to_Z; lia|].
  destruct (a >? h - 1) eqn:E4; [|bool_to_Z; lia].
  reflexivity.
Qed.

(** X13: on an active session of a supported geometry of height h, when
    the first flagged line is not on the display (line 3 or 4 on a 16x2
    display), [ShowMessage] returns the validation error of that line before
    anything is transmitted, for every non-empty text, and for the empty
    text when the blank-padding option is not set. *)
Theorem ShowMessage_first_line_off_display (s : State) (text : string)
    (options : Z) :
  active (lcd s) = true -> supported (lcd s) ->
  positioned options = true ->
  snd (getSize (lcd s)) <= fst (getLineRange options) ->
  text <> "" \/ flag options SHOW_BLANK_PADDING = false ->
  ShowMessage text options s =
  (Ret (Some (ErrLine (fst (getLineRange options)) (snd (getSize (lcd s)) - 1))), s).
Proof.
  intros Ha Hsup Hp Hoff Ht.
  assert (L : exists lines, splitText (lcd s) text options = Ret lines).
  { destruct text as [|c text].
    - destruct Ht as [Ht | Ht]; [congruence|].
      exists []. unfold splitText. rewrite splitTextW_empty, Ht.
      now rewrite andb_false_r.
    - destruct (splitText_returns_on_text (lcd s) (String c text) options
                  ltac:(discriminate)) as (lines & E & _).
      now exists lines. }
  destruct L as (lines & Hs).
  now apply (ShowMessage_off_display_with_lines s text options lines).
Qed.

Lemma ShowMessage_first_line_off_display_witness :
  ShowMessage "hello" SHOW_LINE_4 (mkState (fresh LCD_16x2) quiet_bus) =
    (Ret (Some (ErrLine 3 1)), mkState (fresh LCD_16x2) quiet_bus) /\
  ShowMessage "" SHOW_LINE_3 (mkState (fresh LCD_16x2) quiet_bus) =
    (Ret (Some (ErrLine 2 1)), mkState (fresh LCD_16x2) quiet_bus).
Proof.
  split.
  - refine (ShowMessage_first_line_off_display (mkState (fresh LCD_16x2) quiet_bus)
              "hello" SHOW_LINE_4 eq_refl (or_introl eq_refl) eq_refl _ _).
    + simpl. lia.
    + left. discriminate.
  - refine (ShowMessage_first_line_off_display (mkState (fresh LCD_16x2) quiet_bus)
              "" SHOW_LINE_3 eq_refl (or_introl eq_refl) eq_refl _ _).
    + simpl. lia.
    + right. reflexivity.
Defined.

(** ** The line range *)

(** X14: the range of [getLineRange] is the span of the line flags: both
    ends are -1 exactly when no flag of lines 1 to 4 is set; otherwise the
    start is the lowest and the end the highest flagged line (counted from
    0), whatever the flags in between and the other bits of the options. *)
Theorem getLineRange_span (options : Z) :
  let startLine := fst (getLineRange options) in
  let endLine := snd (getLineRange options) in
  (startLine = -1 /\ endLine = -1 /\
   forall i, 0 <= i <= 3 -> line_flag options i = false) \/
  (0 <= startLine <= endLine /\ endLine <= 3 /\
   line_flag options startLine = true /\
   line_flag options endLine = true /\
   forall i, 0 <= i <= 3 -> line_flag options i = true ->
             startLine <= i <= endLine).
Proof.
  cbv zeta. unfold getLineRange.
  change (flag options SHOW_LINE_1) with (line_flag options 0).
  change (flag options SHOW_LINE_2) with (line_flag options 1).
  change (flag options SHOW_LINE_3) with (line_flag options 2).
  change (flag options SHOW_LINE_4) with (line_flag options 3).
  destruct (line_flag options 0) eqn:F0, (line_flag options 1) eqn:F1,
    (line_flag options 2) eqn:F2, (line_flag options 3) eqn:F3;
    cbn [scan_up scan_down List.length nth fst snd Z.add Z.of_nat
           Pos.of_succ_nat Pos.succ Pos.add];
    first
      [ left; split; [reflexivity|]; split; [reflexivity|];
        intros i Hi;
        assert (C : i = 0 \/ i = 1 \/ i = 2 \/ i = 3) by lia;
        destruct C as [-> | [-> | [-> | ->]]]; assumption
      | right; split; [lia|]; split; [lia|];
        split; [assumption|]; split; [assumption|];
        intros i Hi;
        assert (C : i = 0 \/ i = 1 \/ i = 2 \/ i = 3) by lia;
        destruct C as [-> | [-> | [-> | ->]]]; intros Hf; try lia; congruence ].
Qed.

(** ** Control bits *)

Lemma ldiff_is_byte a b : is_byte a -> is_byte (Z.ldiff a b).
Proof.
  unfold is_byte. intros [H0 H1].
  assert (E : Z.ldiff a b = Z.land (Z.ldiff a b) (Z.ones 8)).
  { apply Z.bits_inj'. intros n Hn.
    rewrite Z.land_spec, Z.ldiff_spec.
    destruct (Z_lt_le_dec n 8) as [L | G].
    - rewrite Z.ones_spec_low by lia. now rewrite andb_true_r.
    - assert (T : Z.testbit a n = false).
      { rewrite <- (Z.mod_small a (2 ^ 8)) by (simpl; lia).
        apply Z.mod_pow2_bits_high. lia. }
      rewrite T. reflexivity. }
  rewrite E, Z.land_ones by lia.
  apply Z.mod_pos_bound. simpl. lia.
Qed.

Lemma testbit_pow2 n i : 0 <= n -> Z.testbit (2 ^ n) i = (n =? i).
Proof. intros H. now apply Z.pow2_bits_eqb. Qed.

(** X15: each of the control operations changes exactly its own bit of
    its register snapshot, whether or not the transmission succeeds:
    bit 2 (display), bit 1 (cursor) and bit 0 (blink) of the display
    control snapshot, and bit 1 (entry left) of the entry mode snapshot;
    every other bit of the snapshot is as before. *)
Theorem control_bits_independent (s : State) (i : Z) :
  let dc op := Z.testbit (displayControl (lcd (snd (op s)))) i in
  let dm op := Z.testbit (displayMode (lcd (snd (op s)))) i in
  let dc0 := Z.testbit (displayControl (lcd s)) i in
  let dm0 := Z.testbit (displayMode (lcd s)) i in
  dc DisplayOn = (if i =? 2 then true else dc0) /\
  dc DisplayOff = (if i =? 2 then false else dc0) /\
  dc CursorOn = (if i =? 1 then true else dc0) /\
  dc CursorOff = (if i =? 1 then false else dc0) /\
  dc BlinkOn = (if i =? 0 then true else dc0) /\
  dc BlinkOff = (if i =? 0 then false else dc0) /\
  dm LeftRightDisplay = (if i =? 1 then true else dm0) /\
  dm RightLeftDisplay = (if i =? 1 then false else dm0).
Proof.
  cbv zeta.
  unfold DisplayOn, DisplayOff, CursorOn, CursorOff, BlinkOn, BlinkOff,
    LeftRightDisplay, RightLeftDisplay.
  rewrite !control_op_lcd.
  unfold with_displayControl, with_displayMode, and_not.
  cbn [displayControl displayMode].
  rewrite !Z.lor_spec, !Z.ldiff_spec.
  change OPT_Enable_Display with (2 ^ 2).
  change OPT_Enable_Cursor with (2 ^ 1).
  change OPT_Enable_Blink with (2 ^ 0).
  change OPT_EntryLeft with (2 ^ 1).
  rewrite !testbit_pow2 by lia.
  rewrite (Z.eqb_sym 2 i), (Z.eqb_sym 1 i), (Z.eqb_sym 0 i).
  destruct (i =? 2), (i =? 1), (i =? 0);
    cbn [negb]; rewrite ?orb_true_r, ?orb_false_r, ?andb_true_r, ?andb_false_r;
    repeat split.
Qed.

Lemma well_formed_with_displayControl l v :
  well_formed l -> is_byte v -> well_formed (with_displayControl v l).
Proof. intros (Hf & Hc & Hm & Hw & Hr) Hv. repeat (split; [assumption|]); assumption. Qed.

Lemma well_formed_with_displayMode l v :
  well_formed l -> is_byte v -> well_formed (with_displayMode v l).
Proof. intros (Hf & Hc & Hm & Hw & Hr) Hv. repeat (split; [assumption|]); assumption. Qed.

Lemma well_formed_with_backlight l v :
  well_formed l -> well_formed (with_backlight v l).
Proof. intros H. exact H. Qed.

Lemma well_formed_with_active l v :
  well_formed l -> well_formed (with_active v l).
Proof. intros H. exact H. Qed.

(** X16: the sessions handed out by [NewLcd] hold bytes in their three
    register snapshots and 16-bit strobe delays, and every control
    operation, both backlight switches and [Shutdown] keep it so, whether or
    not their transmissions succeed. *)
Theorem well_formed_kept (s : State) (t : LcdType) :
  well_formed (fresh t) /\
  (well_formed (lcd s) ->
   well_formed (lcd (snd (DisplayOn s))) /\
   well_formed (lcd (snd (DisplayOff s))) /\
   well_formed (lcd (snd (CursorOn s))) /\
   well_formed (lcd (snd (CursorOff s))) /\
   well_formed (lcd (snd (BlinkOn s))) /\
   well_formed (lcd (snd (BlinkOff s))) /\
   well_formed (lcd (snd (LeftRightDisplay s))) /\
   well_formed (lcd (snd (RightLeftDisplay s))) /\
   well_formed (lcd (snd (BacklightOn s))) /\
   well_formed (lcd (snd (BacklightOff s))) /\
   well_formed (lcd (snd (Shutdown s)))).
Proof.
  split.
  - unfold well_formed, is_byte. simpl. lia.
  - intros H. pose proof H as (Hf & Hc & Hm & Hw & Hr).
    assert (B4 : is_byte OPT_Enable_Display) by (unfold is_byte, OPT_Enable_Display; lia).
    assert (B2 : is_byte OPT_Enable_Cursor) by (unfold is_byte, OPT_Enable_Cursor; lia).
    assert (B1 : is_byte OPT_Enable_Blink) by (unfold is_byte, OPT_Enable_Blink; lia).
    assert (BL : is_byte OPT_EntryLeft) by (unfold is_byte, OPT_EntryLeft; lia).
    unfold DisplayOn, DisplayOff, CursorOn, CursorOff, BlinkOn, BlinkOff,
      LeftRightDisplay, RightLeftDisplay.
    rewrite !control_op_lcd.
    destruct s as [l w].
    destruct (Backlight_total l true w) as (r1 & w1 & E1 & _).
    destruct (Backlight_total l false w) as (r2 & w2 & E2 & _).
    destruct (Shutdown_total (mkState l w)) as (w3 & E3).
    unfold BacklightOn, BacklightOff. rewrite E1, E2, E3.
    cbn [snd lcd] in *. unfold and_not.
    repeat match goal with
           | |- _ /\ _ => split
           end;
      auto using well_formed_with_displayControl, well_formed_with_displayMode,
        well_formed_with_backlight, well_formed_with_active,
        lor_is_byte, ldiff_is_byte.
Qed.

Lemma well_formed_kept_witness :
  well_formed (lcd (snd (CursorOff (mkState (fresh LCD_20x4) dead_bus)))).
Proof.
  refine (proj1 (proj2 (proj2 (proj2 (proj2 (well_formed_kept
            (mkState (fresh LCD_20x4) dead_bus) LCD_20x4) _))))).
  unfold well_formed, is_byte. simpl. lia.
Defined.

(** ** Strobe delays *)

(** X17: [SetStrobeDelays] touches neither the bus nor any other field of
    the session; [GetStrobeDelays] then returns the two values that were
    set, and from then on [writeByte] holds the strobe high for the new
    write delay and low for the new reset delay (in microseconds). *)
Theorem strobe_delays_round_trip (s : State) (writeDelay resetDelay data controlPins : Z) :
  let l' := with_strobeDelays writeDelay resetDelay (lcd s) in
  let s' := mkState l' (world s) in
  SetStrobeDelays writeDelay resetDelay s = (Ret tt, s') /\
  GetStrobeDelays s' = (Ret (writeDelay, resetDelay), s') /\
  (is_byte data -> bus_ok (world s) 6 ->
   writeByte data controlPins s' =
   (Ret None,
    mkState l'
      (advance (world s) 6
         (raw_transfers (transfer_byte (lcd s) (data / 16) controlPins)
            (writeDelay * 1000) (resetDelay * 1000) ++
          raw_transfers (transfer_byte (lcd s) (data mod 16) controlPins)
            (writeDelay * 1000) (resetDelay * 1000))))).
Proof.
  cbv zeta. split; [reflexivity|]. split; [reflexivity|].
  intros Hd Hb. rewrite writeByte_ok by assumption. reflexivity.
Qed.

(** ** Runes *)

Lemma byte_of_range c : 0 <= byte_of c < 256.
Proof.
  unfold byte_of. pose proof (nat_ascii_bounded c). lia.
Qed.

Lemma runes_of_ascii_text s : ascii_text s = true -> runes s = bytes_of s.
Proof.
  induction s as [|c s IH]; cbn [ascii_text runes bytes_of]; [reflexivity|].
  intros H. apply andb_true_iff in H. destruct H as [Hc Hs].
  unfold first. rewrite Hc. now rewrite IH.
Qed.

Lemma to_byte_bytes_of s : map to_byte (bytes_of s) = bytes_of s.
Proof.
  induction s as [|c s IH]; cbn [bytes_of map]; [reflexivity|].
  rewrite IH. f_equal. unfold to_byte. apply Z.mod_small, byte_of_range.
Qed.

Lemma data_events_of_ascii_text (l : Lcd) (text : string) :
  ascii_text text = true ->
  runes text = bytes_of text /\
  data_events l (runes text) =
    flat_map (fun b => byte_transfer l b PIN_RS) (bytes_of text).
Proof.
  intros H. rewrite (runes_of_ascii_text text H). split; [reflexivity|].
  unfold data_events. rewrite <- (to_byte_bytes_of text) at 2.
  rewrite flat_map_concat_map, flat_map_concat_map, map_map. reflexivity.
Qed.

(** X18: the characters [ShowMessage] sends for a segment of 7-bit
    characters are its bytes, one data byte per character in order. *)
Theorem ascii_text_sent_as_is (l : Lcd) (text : string) :
  ascii_text text = true ->
  runes text = bytes_of text /\
  data_events l (runes text) =
    flat_map (fun b => byte_transfer l b PIN_RS) (bytes_of text).
Proof.
  exact (data_events_of_ascii_text l text).
Qed.

Lemma ascii_text_sent_as_is_witness :
  runes "Hi!" = [0x48; 0x69; 0x21] /\
  data_events (fresh LCD_16x2) (runes "Hi!") =
    byte_transfer (fresh LCD_16x2) 0x48 PIN_RS ++
    byte_transfer (fresh LCD_16x2) 0x69 PIN_RS ++
    byte_transfer (fresh LCD_16x2) 0x21 PIN_RS ++ [].
Proof.
  exact (ascii_text_sent_as_is (fresh LCD_16x2) "Hi!" eq_refl).
Defined.

(** ** Addresses *)

(** X19: on a display of up to 4 lines and 20 columns the position-set
    command that [SetPosition] transmits has bit 7 set and determines the
    line and the column: two different positions never share an address. *)
Theorem position_command_injective (line pos line' pos' : Z) :
  0 <= line <= 3 -> 0 <= pos <= 19 -> 0 <= line' <= 3 -> 0 <= pos' <= 19 ->
  0x80 <= position_command line pos < 256 /\
  (position_command line pos = position_command line' pos' ->
   line = line' /\ pos = pos').
Proof.
  intros Hl Hp Hl' Hp'.
  assert (C : line = 0 \/ line = 1 \/ line = 2 \/ line = 3) by lia.
  assert (C' : line' = 0 \/ line' = 1 \/ line' = 2 \/ line' = 3) by lia.
  unfold position_command, to_byte, CMD_DDRAM_Set.
  destruct C as [-> | [-> | [-> | ->]]];
    destruct C' as [-> | [-> | [-> | ->]]];
    change (offset_of 0) with 0x00; change (offset_of 1) with 0x40;
    change (offset_of 2) with 0x14; change (offset_of 3) with 0x54;
    rewrite !Z.mod_small by lia; lia.
Qed.

Lemma position_command_injective_witness :
  0x80 <= position_command 2 19 < 256 /\
  (position_command 2 19 = position_command 1 0 -> 2 = 1 /\ 19 = 0).
Proof.
  apply (position_command_injective 2 19 1 0); lia.
Defined.

(** ** [ShowMessage] without line flags and [Write] *)

Lemma length_bytes_of s : List.length (bytes_of s) = String.length s.
Proof. induction s as [|c s IH]; simpl; [reflexivity|now rewrite IH]. Qed.

Lemma write_events_bytes l s :
  write_events l (bytes_of s) =
  flat_map (fun b => byte_transfer l b PIN_RS) (bytes_of s).
Proof.
  unfold write_events. induction s as [|c s IH]; cbn [bytes_of flat_map];
    [reflexivity|].
  rewrite IH, byte_events_transfer by (unfold is_byte; apply byte_of_range).
  reflexivity.
Qed.

(** X20: on an active session, without line flags, [ShowMessage] of a
    non-empty text of 7-bit characters puts on the bus what [Write] of the
    bytes of the text puts there: the same number of bus calls and, when
    the bus accepts them, the same events, with no cursor positioning;
    both stop at the first failing bus call. *)
Theorem ShowMessage_as_Write (s : State) (text : string) (options : Z) :
  active (lcd s) = true -> range_active options = false ->
  text <> "" -> ascii_text text = true ->
  let n := (6 * String.length text)%nat in
  let evs := write_events (lcd s) (bytes_of text) in
  (exists r w',
      ShowMessage text options s = (Ret r, mkState (lcd s) w') /\
      run true n evs (world s) w' r) /\
  (exists k r w',
      Write (bytes_of text) s = (Ret (k, r), mkState (lcd s) w') /\
      run true n evs (world s) w' r).
Proof.
  intros Ha Hr Hne Hasc. cbv zeta. split.
  - assert (Hs : splitText (lcd s) text options = Ret [text]).
    { rewrite splitText_fallback by (rewrite Hr; apply andb_false_r).
      destruct text; [congruence|]. reflexivity. }
    assert (Hp : positioned options = false)
      by (now rewrite positioned_range).
    destruct s as [l w]. cbn [lcd world] in *.
    rewrite (ShowMessage_enters l text options [text] w Ha Hs).
    pose proof (steady_ShowMessage_loop true l (fst (getLineRange options))
                  (snd (getLineRange options)) [text]) as Hloop.
    cbv zeta in Hloop. unfold positioned in Hp.
    destruct (getLineRange options) as [a b]. cbn [fst snd] in *.
    rewrite Hp in Hloop.
    destruct (Hloop ltac:(discriminate) [text] (@nil string) 2%nat eq_refl
                ltac:(discriminate) ltac:(simpl; lia) w) as (r & w' & E & R).
    exists r, w'. split; [exact E|].
    cbn [message_calls message_events] in R.
    rewrite (proj2 (data_events_of_ascii_text l text Hasc)) in R.
    rewrite write_events_bytes.
    rewrite (runes_of_ascii_text text Hasc), length_bytes_of in R.
    rewrite !app_nil_r in R. cbn [app] in R.
    replace (0 + 6 * String.length text + 0)%nat with (6 * String.length text)%nat
      in R by lia.
    exact R.
  - destruct s as [l w]. cbn [lcd world]. unfold Write.
    destruct (Write_from_outcome l (bytes_of text) 0 w) as (k & r & w' & E & R & _).
    exists k, r, w'. split; [exact E|].
    now rewrite length_bytes_of in R.
Qed.

Lemma ShowMessage_as_Write_witness :
  (exists r w',
      ShowMessage "Hi" SHOW_BLANK_PADDING (mkState (fresh LCD_20x4) quiet_bus) =
        (Ret r, mkState (fresh LCD_20x4) w') /\
      run true 12 (write_events (fresh LCD_20x4) [0x48; 0x69]) quiet_bus w' r) /\
  (exists k r w',
      Write [0x48; 0x69] (mkState (fresh LCD_20x4) quiet_bus) =
        (Ret (k, r), mkState (fresh LCD_20x4) w') /\
      run true 12 (write_events (fresh LCD_20x4) [0x48; 0x69]) quiet_bus w' r).
Proof.
  refine (ShowMessage_as_Write (mkState (fresh LCD_20x4) quiet_bus)
            "Hi" SHOW_BLANK_PADDING eq_refl eq_refl _ eq_refl).
  discriminate.
Defined.
